(** * Peer-to-peer file transfer: the WebRTC context provider

    A shallow embedding of the transfer logic of the [WebRTCProvider]
    component (signaling handlers, the chunked sender, the reassembling
    receiver) and the properties its specification states about it.

    Conventions of the embedding:
    - the component's React state and its refs form one [State] record; a
      handler is a function from the state it runs against to an outcome, the
      state it leaves and the effects it performed, in order.  The values of
      React state a handler reads ([ws], [activeTransfer],
      [incomingTransfer]) are the bindings of the render that created the
      handler: [State] holds what the handler sees.  The event loop gives the
      handlers called from the user interface and from effects the state of
      the moment, and the handlers of the signaling socket the [ws] of the
      render that connected it;
    - everything the component does to the outside (socket sends, data channel
      sends, toasts, the download, the REST call, timers, [console.error]) is
      an [Effect]; [console.log] lines are left out;
    - a handler of the provider runs to completion: its [await]s are not
      interleaved with other events, and the calls it makes into the peer
      connection library succeed; a call that is not awaited runs up to its
      first [await] at the place of the call, and the rest of it after the
      caller's own statements;
    - what the outside decides (whether the data channel opens in time, whether
      the REST call fails) is an explicit argument of the handler. *)

From Stdlib Require Import Strings.Ascii Strings.String Strings.Byte.
From Stdlib Require Import Arith ZArith NArith Lia Bool List.
From Stdlib Require Import Floats.PrimFloat Floats.SpecFloat Floats.FloatOps.
From Stdlib Require Floats.FloatAxioms.
Import ListNotations.

Set Implicit Arguments.

Open Scope string_scope.
Open Scope list_scope.
Open Scope nat_scope.

(** ** JavaScript numbers

    Progress values are IEEE 754 doubles, computed with division and
    multiplication; byte counts stay exact integers and are converted at the
    point where the source divides them. *)
Module JS.

Definition number := float.

(** The double nearest to an integer. *)
Definition of_Z (z : Z) : number :=
  SF2Prim (binary_normalize prec emax z 0 false).

Definition of_nat (n : nat) : number := of_Z (Z.of_nat n).

(** [Math.min] of two numbers: NaN if either is NaN, and -0 below +0. *)
Definition Math_min (a b : number) : number :=
  if is_nan a || is_nan b then nan
  else if ltb a b then a
  else if ltb b a then b
  else if is_zero a && get_sign a then a
  else b.

(** [a <= b] as JavaScript evaluates it (false as soon as NaN is involved). *)
Definition le (a b : number) : bool := leb a b.

End JS.

(** The chunk bound of the sender. *)
Definition CHUNK_SIZE : nat := N.to_nat 16384.

(** ** Data model *)

Definition UserId := string.
Definition Socket := nat.
Definition Candidate := string.

Record User := { user_id : UserId; user_name : string }.

(** A [File] of the browser: its size is the length of its content. *)
Record File := {
  file_name : string;
  file_type : string;
  file_bytes : list byte
}.

Definition file_size (f : File) : nat := length (file_bytes f).

(** [file.slice(start, end)] for [0 <= start]: both ends are clamped to the
    size of the file, and an empty span gives an empty blob. *)
Definition file_slice (f : File) (s e : nat) : list byte :=
  firstn (e - s) (skipn s (file_bytes f)).

(** Session descriptors: one that came over the wire, or the offer or answer
    that the peer connection with the given number produced. *)
Inductive Descriptor :=
| FromWire (payload : string)
| OfferOf (pc : nat)
| AnswerOf (pc : nat).

(** Messages the signaling socket delivers ([message.type] in
    [socket.onmessage]). *)
Inductive ServerMsg :=
| room_users (users : list User)
| room_joined (room_id : string)
| room_left
| transfer_request (from : UserId) (from_username fileName : string)
                   (fileSize : Z) (fileType : string)
| transfer_response (from : UserId) (accepted : bool)
| offer (from : UserId) (sdp : Descriptor)
| answer (from : UserId) (sdp : Descriptor)
| ice_candidate (from : UserId) (candidate : option Candidate)
| other_message (type : string).

(** Messages the component sends on the signaling socket. *)
Inductive ClientMsg :=
| send_join_room (room_id : string)
| send_leave_room
| send_ice_candidate (target : UserId) (candidate : Candidate)
| send_offer (target : UserId) (sdp : Descriptor)
| send_answer (target : UserId) (sdp : Descriptor)
| send_transfer_request (target : UserId) (fileName : string)
                        (fileSize : nat) (fileType : string)
| send_transfer_response (target : UserId) (accepted : bool).

(** Frames of the data channel: a string carries a control message, anything
    else is a chunk of the file. *)
Record FileMeta := {
  fm_fileName : string;
  fm_fileSize : Z;
  fm_fileType : string;
  fm_senderId : UserId
}.

Inductive Control :=
| file_meta (m : FileMeta)
| file_end
| other_control (type : string).

Inductive Frame :=
| Text (c : Control)
| Binary (data : list byte).

(** The record [logTransfer] posts. *)
Record TransferLog := {
  tl_fileName : string;
  tl_fileSize : Z;
  tl_fileType : string;
  tl_sender_id : UserId;
  tl_receiver_id : option UserId
}.

Inductive ToastKind := toast_success | toast_error | toast_info.

Inductive Timer :=
| OpenTimeout            (* reject(new Error('Data channel open timeout')) *)
| ClearActiveTransfer.   (* setActiveTransfer(null) *)

Inductive Effect :=
| WsSend (s : Socket) (m : ClientMsg)
| ChannelSend (ch : nat) (f : Frame)
| Toast (k : ToastKind) (text : string)
| ConsoleError (text : string)
| NewPeerConnection (pc : nat) (target : UserId)
| CreateDataChannel (pc ch : nat) (label : string)
| Download (fileName fileType : string) (content : list byte)
| Fetch (token : string) (record : TransferLog)
| SetTimeout (ms : N) (t : Timer).

Inductive TransferKind := sending | receiving.

(** The object held in [activeTransfer].  [{...prev, progress}] on a null
    [prev] gives an object with a progress and nothing else, so every other
    field may be missing. *)
Record ActiveTransfer := {
  at_fileName : option string;
  at_fileSize : option Z;
  at_progress : JS.number;
  at_type : option TransferKind;
  at_file : option File;
  at_targetUserId : option UserId
}.

Record IncomingTransfer := {
  it_from : UserId;
  it_from_username : string;
  it_fileName : string;
  it_fileSize : Z;
  it_fileType : string
}.

Inductive ReadyState := connecting | open | closing | closed.

Record DataChannel := {
  ch_id : nat;
  ch_label : string;
  ch_readyState : ReadyState;
  ch_handlers : bool          (* setupDataChannel has installed its handlers *)
}.

Record PeerConnection := {
  pc_id : nat;
  pc_target : UserId;         (* the targetUserId its handlers closed over *)
  pc_remoteDescription : option Descriptor;
  pc_localDescription : option Descriptor;
  pc_candidates : list Candidate
}.

(** React state ([useState]) and refs ([useRef]) of the provider, and the
    number of peer connections and data channels created so far. *)
Record State := {
  ws : option Socket;
  onlineUsers : list User;
  currentRoom : option string;
  incomingTransfer : option IncomingTransfer;
  activeTransfer : option ActiveTransfer;
  peerConnectionRef : option PeerConnection;
  dataChannelRef : option DataChannel;
  receivedBufferRef : list (list byte);
  receivedSizeRef : nat;
  transferMetaRef : option FileMeta;
  pcCreated : nat;
  chCreated : nat
}.

(** The state of a freshly mounted provider. *)
Definition initial : State := {|
  ws := None; onlineUsers := []; currentRoom := None;
  incomingTransfer := None; activeTransfer := None;
  peerConnectionRef := None; dataChannelRef := None;
  receivedBufferRef := []; receivedSizeRef := 0; transferMetaRef := None;
  pcCreated := 0; chCreated := 0
|}.

(** Setters: [setX v st] is [st] with the field [X] replaced. *)
Definition setWs v st := {|
  ws := v; onlineUsers := onlineUsers st; currentRoom := currentRoom st;
  incomingTransfer := incomingTransfer st; activeTransfer := activeTransfer st;
  peerConnectionRef := peerConnectionRef st; dataChannelRef := dataChannelRef st;
  receivedBufferRef := receivedBufferRef st; receivedSizeRef := receivedSizeRef st;
  transferMetaRef := transferMetaRef st;
  pcCreated := pcCreated st; chCreated := chCreated st |}.

Definition setOnlineUsers v st := {|
  ws := ws st; onlineUsers := v; currentRoom := currentRoom st;
  incomingTransfer := incomingTransfer st; activeTransfer := activeTransfer st;
  peerConnectionRef := peerConnectionRef st; dataChannelRef := dataChannelRef st;
  receivedBufferRef := receivedBufferRef st; receivedSizeRef := receivedSizeRef st;
  transferMetaRef := transferMetaRef st;
  pcCreated := pcCreated st; chCreated := chCreated st |}.

Definition setCurrentRoom v st := {|
  ws := ws st; onlineUsers := onlineUsers st; currentRoom := v;
  incomingTransfer := incomingTransfer st; activeTransfer := activeTransfer st;
  peerConnectionRef := peerConnectionRef st; dataChannelRef := dataChannelRef st;
  receivedBufferRef := receivedBufferRef st; receivedSizeRef := receivedSizeRef st;
  transferMetaRef := transferMetaRef st;
  pcCreated := pcCreated st; chCreated := chCreated st |}.

Definition setIncomingTransfer v st := {|
  ws := ws st; onlineUsers := onlineUsers st; currentRoom := currentRoom st;
  incomingTransfer := v; activeTransfer := activeTransfer st;
  peerConnectionRef := peerConnectionRef st; dataChannelRef := dataChannelRef st;
  receivedBufferRef := receivedBufferRef st; receivedSizeRef := receivedSizeRef st;
  transferMetaRef := transferMetaRef st;
  pcCreated := pcCreated st; chCreated := chCreated st |}.

Definition setActiveTransfer v st := {|
  ws := ws st; onlineUsers := onlineUsers st; currentRoom := currentRoom st;
  incomingTransfer := incomingTransfer st; activeTransfer := v;
  peerConnectionRef := peerConnectionRef st; dataChannelRef := dataChannelRef st;
  receivedBufferRef := receivedBufferRef st; receivedSizeRef := receivedSizeRef st;
  transferMetaRef := transferMetaRef st;
  pcCreated := pcCreated st; chCreated := chCreated st |}.

Definition setPeerConnectionRef v st := {|
  ws := ws st; onlineUsers := onlineUsers st; currentRoom := currentRoom st;
  incomingTransfer := incomingTransfer st; activeTransfer := activeTransfer st;
  peerConnectionRef := v; dataChannelRef := dataChannelRef st;
  receivedBufferRef := receivedBufferRef st; receivedSizeRef := receivedSizeRef st;
  transferMetaRef := transferMetaRef st;
  pcCreated := pcCreated st; chCreated := chCreated st |}.

Definition setDataChannelRef v st := {|
  ws := ws st; onlineUsers := onlineUsers st; currentRoom := currentRoom st;
  incomingTransfer := incomingTransfer st; activeTransfer := activeTransfer st;
  peerConnectionRef := peerConnectionRef st; dataChannelRef := v;
  receivedBufferRef := receivedBufferRef st; receivedSizeRef := receivedSizeRef st;
  transferMetaRef := transferMetaRef st;
  pcCreated := pcCreated st; chCreated := chCreated st |}.

Definition setReceivedBufferRef v st := {|
  ws := ws st; onlineUsers := onlineUsers st; currentRoom := currentRoom st;
  incomingTransfer := incomingTransfer st; activeTransfer := activeTransfer st;
  peerConnectionRef := peerConnectionRef st; dataChannelRef := dataChannelRef st;
  receivedBufferRef := v; receivedSizeRef := receivedSizeRef st;
  transferMetaRef := transferMetaRef st;
  pcCreated := pcCreated st; chCreated := chCreated st |}.

Definition setReceivedSizeRef v st := {|
  ws := ws st; onlineUsers := onlineUsers st; currentRoom := currentRoom st;
  incomingTransfer := incomingTransfer st; activeTransfer := activeTransfer st;
  peerConnectionRef := peerConnectionRef st; dataChannelRef := dataChannelRef st;
  receivedBufferRef := receivedBufferRef st; receivedSizeRef := v;
  transferMetaRef := transferMetaRef st;
  pcCreated := pcCreated st; chCreated := chCreated st |}.

Definition setTransferMetaRef v st := {|
  ws := ws st; onlineUsers := onlineUsers st; currentRoom := currentRoom st;
  incomingTransfer := incomingTransfer st; activeTransfer := activeTransfer st;
  peerConnectionRef := peerConnectionRef st; dataChannelRef := dataChannelRef st;
  receivedBufferRef := receivedBufferRef st; receivedSizeRef := receivedSizeRef st;
  transferMetaRef := v;
  pcCreated := pcCreated st; chCreated := chCreated st |}.

Definition setPcCreated v st := {|
  ws := ws st; onlineUsers := onlineUsers st; currentRoom := currentRoom st;
  incomingTransfer := incomingTransfer st; activeTransfer := activeTransfer st;
  peerConnectionRef := peerConnectionRef st; dataChannelRef := dataChannelRef st;
  receivedBufferRef := receivedBufferRef st; receivedSizeRef := receivedSizeRef st;
  transferMetaRef := transferMetaRef st;
  pcCreated := v; chCreated := chCreated st |}.

Definition setChCreated v st := {|
  ws := ws st; onlineUsers := onlineUsers st; currentRoom := currentRoom st;
  incomingTransfer := incomingTransfer st; activeTransfer := activeTransfer st;
  peerConnectionRef := peerConnectionRef st; dataChannelRef := dataChannelRef st;
  receivedBufferRef := receivedBufferRef st; receivedSizeRef := receivedSizeRef st;
  transferMetaRef := transferMetaRef st;
  pcCreated := pcCreated st; chCreated := v |}.

(** [{...prev, progress: p}] *)
Definition with_progress (prev : option ActiveTransfer) (p : JS.number)
  : ActiveTransfer :=
  match prev with
  | Some t => {|
      at_fileName := at_fileName t; at_fileSize := at_fileSize t;
      at_progress := p; at_type := at_type t;
      at_file := at_file t; at_targetUserId := at_targetUserId t |}
  | None => {|
      at_fileName := None; at_fileSize := None; at_progress := p;
      at_type := None; at_file := None; at_targetUserId := None |}
  end.

(** ** Handlers as state transformers with effects and exceptions *)

Inductive Outcome (A : Type) :=
| Returned (a : A)
| Threw (e : string).
Arguments Threw {A} e.

Definition M (A : Type) := State -> Outcome A * State * list Effect.

Definition ret {A} (a : A) : M A := fun st => (Returned a, st, []).

Definition bind {A B} (m : M A) (k : A -> M B) : M B :=
  fun st =>
    match m st with
    | (Returned a, st1, e1) =>
        match k a st1 with
        | (r, st2, e2) => (r, st2, e1 ++ e2)
        end
    | (Threw e, st1, e1) => (Threw e, st1, e1)
    end.

Definition get : M State := fun st => (Returned st, st, []).
Definition modify (f : State -> State) : M unit :=
  fun st => (Returned tt, f st, []).
Definition emit (e : Effect) : M unit := fun st => (Returned tt, st, [e]).
Definition throw {A} (e : string) : M A := fun st => (Threw e, st, []).

Notation "x <- c1 ;; c2" := (bind c1 (fun x => c2))
  (at level 61, c1 at next level, right associativity).
Notation "c1 ;; c2" := (bind c1 (fun _ => c2))
  (at level 61, right associativity).

(** [try { body } catch { handler }] *)
Definition try_catch {A} (body : M A) (handler : string -> M A) : M A :=
  fun st =>
    match body st with
    | (Returned a, st1, e1) => (Returned a, st1, e1)
    | (Threw e, st1, e1) =>
        match handler e st1 with
        | (r, st2, e2) => (r, st2, e1 ++ e2)
        end
    end.

Definition outcome {A} (r : Outcome A * State * list Effect) := fst (fst r).
Definition state_of {A} (r : Outcome A * State * list Effect) := snd (fst r).
Definition effects {A} (r : Outcome A * State * list Effect) := snd r.

Definition TypeError_null : string :=
  "TypeError: Cannot read properties of null".
Definition InvalidStateError : string :=
  "InvalidStateError: RTCDataChannel.readyState is not 'open'".

(** How the REST call of [logTransfer] ends: [fetch] resolves with some HTTP
    status, or rejects. *)
Inductive FetchOutcome :=
| fetch_resolved (status : nat)
| fetch_rejected.

(** The bounded wait for the data channel, in milliseconds. *)
Definition OPEN_TIMEOUT : N := 20000.

Definition truthy_string (s : string) : bool := negb (String.eqb s "").

Definition pc_setRemoteDescription (d : Descriptor) (pc : PeerConnection) := {|
  pc_id := pc_id pc; pc_target := pc_target pc;
  pc_remoteDescription := Some d;
  pc_localDescription := pc_localDescription pc;
  pc_candidates := pc_candidates pc |}.

Definition pc_setLocalDescription (d : Descriptor) (pc : PeerConnection) := {|
  pc_id := pc_id pc; pc_target := pc_target pc;
  pc_remoteDescription := pc_remoteDescription pc;
  pc_localDescription := Some d;
  pc_candidates := pc_candidates pc |}.

Definition pc_addIceCandidate (c : Candidate) (pc : PeerConnection) := {|
  pc_id := pc_id pc; pc_target := pc_target pc;
  pc_remoteDescription := pc_remoteDescription pc;
  pc_localDescription := pc_localDescription pc;
  pc_candidates := pc_candidates pc ++ [c] |}.

Definition ch_with_readyState (rs : ReadyState) (ch : DataChannel) := {|
  ch_id := ch_id ch; ch_label := ch_label ch;
  ch_readyState := rs; ch_handlers := ch_handlers ch |}.

Definition ch_with_handlers (ch : DataChannel) := {|
  ch_id := ch_id ch; ch_label := ch_label ch;
  ch_readyState := ch_readyState ch; ch_handlers := true |}.

(** A method call on the peer connection object number [id].  Only the
    object the ref points to is tracked. *)
Definition on_pc (id : nat) (f : PeerConnection -> PeerConnection) : M unit :=
  modify (fun st =>
    match peerConnectionRef st with
    | Some pc =>
        if pc_id pc =? id then setPeerConnectionRef (Some (f pc)) st else st
    | None => st
    end).

Definition on_channel (id : nat) (f : DataChannel -> DataChannel) : M unit :=
  modify (fun st =>
    match dataChannelRef st with
    | Some ch =>
        if ch_id ch =? id then setDataChannelRef (Some (f ch)) st else st
    | None => st
    end).

(** [ws.send(JSON.stringify(m))] with no guard on [ws]. *)
Definition ws_send (m : ClientMsg) : M unit :=
  st <- get ;;
  match ws st with
  | Some s => emit (WsSend s m)
  | None => throw TypeError_null
  end.

(** [dataChannelRef.current.send(f)] *)
Definition channel_send (f : Frame) : M unit :=
  st <- get ;;
  match dataChannelRef st with
  | None => throw TypeError_null
  | Some ch =>
      match ch_readyState ch with
      | open => emit (ChannelSend (ch_id ch) f)
      | _ => throw InvalidStateError
      end
  end.

Section Provider.

(** The authenticated identity, from [useAuth()]. *)
Variable user : User.
Variable token : string.

Definition socket_onopen (socket : Socket) : M unit :=
  modify (setWs (Some socket)).

Definition socket_onerror : M unit :=
  emit (ConsoleError "WebSocket error:") ;;
  emit (Toast toast_error "Connection error").

Definition socket_onclose : M unit :=
  modify (setWs None).

Definition joinRoom (roomId : string) : M unit :=
  st <- get ;;
  match ws st with
  | Some s =>
      if truthy_string roomId then emit (WsSend s (send_join_room roomId))
      else ret tt
  | None => ret tt
  end.

Definition leaveRoom : M unit :=
  st <- get ;;
  match ws st with
  | Some s => emit (WsSend s send_leave_room)
  | None => ret tt
  end.

(** [pc.onicecandidate], for the connection created towards [targetUserId] *)
Definition pc_onicecandidate (targetUserId : UserId)
           (candidate : option Candidate) : M unit :=
  st <- get ;;
  match candidate, ws st with
  | Some c, Some s => emit (WsSend s (send_ice_candidate targetUserId c))
  | _, _ => ret tt
  end.

(** [setupDataChannel] installs [onopen], [onmessage] and [onclose]; the
    [onmessage] it installs is [channel_onmessage] below. *)
Definition setupDataChannel (channel : nat) : M unit :=
  on_channel channel ch_with_handlers.

(** [pc.ondatachannel]: the peer's channel arrives with its label and its
    current ready state. *)
Definition pc_ondatachannel (label : string) (rs : ReadyState) : M unit :=
  st <- get ;;
  let channel := {| ch_id := chCreated st; ch_label := label;
                    ch_readyState := rs; ch_handlers := false |} in
  modify (fun st => setDataChannelRef (Some channel)
                      (setChCreated (S (chCreated st)) st)) ;;
  setupDataChannel (ch_id channel).

Definition createPeerConnection (targetUserId : UserId) : M nat :=
  st <- get ;;
  let pc := {| pc_id := pcCreated st; pc_target := targetUserId;
               pc_remoteDescription := None; pc_localDescription := None;
               pc_candidates := [] |} in
  emit (NewPeerConnection (pc_id pc) targetUserId) ;;
  modify (fun st => setPeerConnectionRef (Some pc)
                      (setPcCreated (S (pcCreated st)) st)) ;;
  ret (pc_id pc).

Definition createOffer (targetUserId : UserId) : M unit :=
  pc <- createPeerConnection targetUserId ;;
  st <- get ;;
  let channel := {| ch_id := chCreated st; ch_label := "fileTransfer";
                    ch_readyState := connecting; ch_handlers := false |} in
  emit (CreateDataChannel pc (ch_id channel) "fileTransfer") ;;
  modify (fun st => setDataChannelRef (Some channel)
                      (setChCreated (S (chCreated st)) st)) ;;
  setupDataChannel (ch_id channel) ;;
  let sdp := OfferOf pc in
  on_pc pc (pc_setLocalDescription sdp) ;;
  ws_send (send_offer targetUserId sdp).

Definition handleOffer (from : UserId) (sdp : Descriptor) : M unit :=
  pc <- createPeerConnection from ;;
  on_pc pc (pc_setRemoteDescription sdp) ;;
  let answer := AnswerOf pc in
  on_pc pc (pc_setLocalDescription answer) ;;
  ws_send (send_answer from answer).

Definition handleAnswer (sdp : Descriptor) : M unit :=
  st <- get ;;
  match peerConnectionRef st with
  | Some pc => on_pc (pc_id pc) (pc_setRemoteDescription sdp)
  | None => throw TypeError_null
  end.

Definition handleIceCandidate (candidate : option Candidate) : M unit :=
  st <- get ;;
  match peerConnectionRef st, candidate with
  | Some pc, Some c => on_pc (pc_id pc) (pc_addIceCandidate c)
  | _, _ => ret tt
  end.

Definition sendFile (file : option File) (targetUserId : UserId) : M unit :=
  st <- get ;;
  match ws st, file with
  | Some s, Some f =>
      emit (WsSend s (send_transfer_request targetUserId (file_name f)
                        (file_size f) (file_type f))) ;;
      modify (setActiveTransfer (Some {|
        at_fileName := Some (file_name f);
        at_fileSize := Some (Z.of_nat (file_size f));
        at_progress := 0%float;
        at_type := Some sending;
        at_file := Some f;
        at_targetUserId := Some targetUserId |}))
  | _, _ => ret tt
  end.

Definition acceptTransfer : M unit :=
  st <- get ;;
  match incomingTransfer st, ws st with
  | Some incoming, Some s =>
      emit (WsSend s (send_transfer_response (it_from incoming) true)) ;;
      modify (setIncomingTransfer None)
  | _, _ => ret tt
  end.

Definition rejectTransfer : M unit :=
  st <- get ;;
  match incomingTransfer st, ws st with
  | Some incoming, Some s =>
      emit (WsSend s (send_transfer_response (it_from incoming) false)) ;;
      modify (setIncomingTransfer None)
  | _, _ => ret tt
  end.

(** [logTransfer] up to its [await]: the request is made. *)
Definition logTransfer_called (transferData : TransferLog) : M unit :=
  emit (Fetch token transferData).

(** [logTransfer] from its [await] on, once the request has settled: a
    rejection is caught and logged. *)
Definition logTransfer_resumed (fo : FetchOutcome) : M unit :=
  try_catch
    (match fo with
     | fetch_resolved _ => ret tt
     | fetch_rejected => throw "TypeError: Failed to fetch"
     end)
    (fun _ => emit (ConsoleError "Failed to log transfer:")).

(** [await logTransfer(transferData)] *)
Definition logTransfer (fo : FetchOutcome) (transferData : TransferLog)
  : M unit :=
  try_catch
    (emit (Fetch token transferData) ;;
     match fo with
     | fetch_resolved _ => ret tt
     | fetch_rejected => throw "TypeError: Failed to fetch"
     end)
    (fun _ => emit (ConsoleError "Failed to log transfer:")).

(** [channel.onmessage], installed by [setupDataChannel]. *)
Definition channel_onmessage (fo : FetchOutcome) (data : Frame) : M unit :=
  match data with
  | Text (file_meta message) =>
      modify (setTransferMetaRef (Some message)) ;;
      modify (setReceivedBufferRef []) ;;
      modify (setReceivedSizeRef 0) ;;
      modify (setActiveTransfer (Some {|
        at_fileName := Some (fm_fileName message);
        at_fileSize := Some (fm_fileSize message);
        at_progress := 0%float;
        at_type := Some receiving;
        at_file := None;
        at_targetUserId := None |}))
  | Text file_end =>
      st <- get ;;
      match transferMetaRef st with
      | None => throw TypeError_null
      | Some meta =>
          emit (Download (fm_fileName meta) (fm_fileType meta)
                         (concat (receivedBufferRef st))) ;;
          emit (Toast toast_success "File received successfully!") ;;
          modify (setActiveTransfer None) ;;
          logTransfer fo {|
            tl_fileName := fm_fileName meta;
            tl_fileSize := fm_fileSize meta;
            tl_fileType := fm_fileType meta;
            tl_sender_id := fm_senderId meta;
            tl_receiver_id := Some (user_id user) |}
      end
  | Text (other_control _) => ret tt
  | Binary chunk =>
      modify (fun st =>
        setReceivedBufferRef (receivedBufferRef st ++ [chunk]) st) ;;
      modify (fun st =>
        setReceivedSizeRef (receivedSizeRef st + length chunk) st) ;;
      st <- get ;;
      match transferMetaRef st with
      | None => throw TypeError_null
      | Some meta =>
          let progress :=
            mul (div (JS.of_nat (receivedSizeRef st))
                     (JS.of_Z (fm_fileSize meta))) 100%float in
          modify (fun st => setActiveTransfer
            (Some (with_progress (activeTransfer st)
                                 (JS.Math_min progress 100%float))) st)
      end
  end.

(** [socket.onmessage] *)
Definition socket_onmessage (message : ServerMsg) : M unit :=
  match message with
  | room_users users =>
      modify (setOnlineUsers
        (filter (fun u => negb (String.eqb (user_id u) (user_id user)))
                users))
  | room_joined room_id =>
      modify (setCurrentRoom (Some room_id)) ;;
      emit (Toast toast_success (String.append "Joined room: " room_id))
  | room_left =>
      modify (setCurrentRoom None) ;;
      modify (setOnlineUsers []) ;;
      emit (Toast toast_info "Left the room")
  | transfer_request from from_username fileName fileSize fileType =>
      modify (setIncomingTransfer (Some {|
        it_from := from; it_from_username := from_username;
        it_fileName := fileName; it_fileSize := fileSize;
        it_fileType := fileType |}))
  | transfer_response from accepted =>
      if accepted then createOffer from
      else
        emit (Toast toast_error "Transfer rejected by recipient") ;;
        modify (setActiveTransfer None)
  | offer from sdp => handleOffer from sdp
  | answer _ sdp => handleAnswer sdp
  | ice_candidate _ candidate => handleIceCandidate candidate
  | other_message _ => ret tt
  end.

(** *** The sender *)

(** [readSlice(o)] reads [file.slice(o, o + CHUNK_SIZE)]; the bytes are what
    the reader's [load] event then carries in [e.target.result]. *)
Definition readSlice (file : File) (o : nat) : list byte :=
  file_slice file o (o + CHUNK_SIZE).

(** [reader.onload] at the given [offset] with the bytes just read.  It
    returns the new offset, and whether it called [readSlice] again.  The
    call to [logTransfer] is not awaited: the request is made at the place of
    the call, the handler goes on to set its timer, and what [logTransfer]
    does with a rejected request comes after that. *)
Definition reader_onload (fo : FetchOutcome) (file : File)
           (targetUserId : option UserId) (offset : nat)
           (result : list byte) : M (nat * bool) :=
  channel_send (Binary result) ;;
  let offset := offset + length result in
  let progress :=
    mul (div (JS.of_nat offset) (JS.of_nat (file_size file))) 100%float in
  modify (fun st => setActiveTransfer
    (Some (with_progress (activeTransfer st)
                         (JS.Math_min progress 100%float))) st) ;;
  if offset <? file_size file then ret (offset, true)
  else
    channel_send (Text file_end) ;;
    emit (Toast toast_success "File sent successfully!") ;;
    logTransfer_called {|
      tl_fileName := file_name file;
      tl_fileSize := Z.of_nat (file_size file);
      tl_fileType := file_type file;
      tl_sender_id := user_id user;
      tl_receiver_id := targetUserId |} ;;
    emit (SetTimeout 2000 ClearActiveTransfer) ;;
    logTransfer_resumed fo ;;
    ret (offset, false).

(** The chain of [load] events [readSlice(offset)] sets off, at most [fuel]
    of them.  [true] is returned once a [load] handler ends the transfer,
    [false] if a read is still pending when the fuel is used up. *)
Fixpoint reader_loop (fuel : nat) (fo : FetchOutcome) (file : File)
         (targetUserId : option UserId) (offset : nat) : M bool :=
  match fuel with
  | 0 => ret false
  | S fuel' =>
      next <- reader_onload fo file targetUserId offset
                            (readSlice file offset) ;;
      if snd next then reader_loop fuel' fo file targetUserId (fst next)
      else ret true
  end.

(** The promise awaited while the channel is not open.  [opens] is the time
    in milliseconds after which the channel's [open] event fires, if ever;
    the timer rejects the promise at [OPEN_TIMEOUT]. *)
Definition wait_for_open (opens : option N) : M unit :=
  emit (SetTimeout OPEN_TIMEOUT OpenTimeout) ;;
  match opens with
  | Some t =>
      if (t <? OPEN_TIMEOUT)%N then
        st <- get ;;
        match dataChannelRef st with
        | Some ch => on_channel (ch_id ch) (ch_with_readyState open)
        | None => ret tt
        end
      else throw "Error: Data channel open timeout"
  | None => throw "Error: Data channel open timeout"
  end.

(** [startFileTransfer], followed through the [load] events of its reader.
    A file of [n] bytes needs at most [n + 1] of them. *)
Definition startFileTransfer (opens : option N) (fo : FetchOutcome)
  : M unit :=
  st <- get ;;
  match activeTransfer st with
  | None => ret tt
  | Some t =>
      match at_file t, dataChannelRef st with
      | Some file, Some ch =>
          let targetUserId := at_targetUserId t in
          proceed <-
            match ch_readyState ch with
            | open => ret true
            | _ =>
                try_catch
                  (wait_for_open opens ;; ret true)
                  (fun err =>
                     emit (Toast toast_error "Data channel failed to open") ;;
                     emit (ConsoleError err) ;;
                     ret false)
            end ;;
          if proceed : bool then
            channel_send (Text (file_meta {|
              fm_fileName := file_name file;
              fm_fileSize := Z.of_nat (file_size file);
              fm_fileType := file_type file;
              fm_senderId := user_id user |})) ;;
            reader_loop (S (file_size file)) fo file targetUserId 0 ;;
            ret tt
          else ret tt
      | _, _ => ret tt
      end
  end.

(** The timer set at the end of a sent transfer. *)
Definition timer_fired (t : Timer) : M unit :=
  match t with
  | ClearActiveTransfer => modify (setActiveTransfer None)
  | OpenTimeout => ret tt
  end.

End Provider.

(** ** The endpoint as an event loop

    Every handler of the provider is the reaction to one event; a handler that
    throws leaves the state as it was at the throw, and the loop goes on. *)
Inductive Event :=
| SocketOpened (socket : Socket)
| SocketErrored
| SocketClosed
| SocketMessage (message : ServerMsg)
| UiJoinRoom (roomId : string)
| UiLeaveRoom
| UiSendFile (file : option File) (targetUserId : UserId)
| UiAccept
| UiReject
| IceCandidateFound (candidate : option Candidate)
| DataChannelArrived (label : string) (rs : ReadyState)
| ChannelMessage (fo : FetchOutcome) (data : Frame)
| TransferEffect (opens : option N) (fo : FetchOutcome)
| TimerFired (t : Timer).

Section EventLoop.

Variable user : User.
Variable token : string.

(** The effect with dependencies [activeTransfer, dataChannelRef.current] *)
Definition transfer_effect (opens : option N) (fo : FetchOutcome) : M unit :=
  st <- get ;;
  match activeTransfer st, dataChannelRef st with
  | Some t, Some _ =>
      match at_type t with
      | Some sending =>
          if eqb (at_progress t) 0%float
          then startFileTransfer user token opens fo
          else ret tt
      | _ => ret tt
      end
  | _, _ => ret tt
  end.

(** [socket.onmessage] is installed by [connectWebSocket], which the effect
    with the dependencies [token] and [user] runs.  The handler and the
    functions it calls ([createOffer], [handleOffer], and the
    [pc.onicecandidate] that their [createPeerConnection] installs) are the
    closures of that render.  No socket exists before the provider connects,
    so the [ws] of that render is the initial null; [setWs(socket)] in
    [socket.onopen] gives the renders that follow a socket, and these
    closures keep the binding they have.  [connect_closure c] is [c] as such
    a closure runs it: it reads null for [ws], and reads and writes the refs
    and the rest of the state as they are at the moment; none of these
    handlers calls [setWs].  (When the user or the token changes, the effect
    connects again from a render whose [ws] is null or the socket that the
    cleanup of the effect closes, never the new socket; the loop follows the
    first connection only.) *)
Definition connect_closure {A} (c : M A) : M A :=
  fun st =>
    match c (setWs None st) with
    | (r, st', effs) => (r, setWs (ws st) st', effs)
    end.

Definition handle (ev : Event) : M unit :=
  match ev with
  | SocketOpened socket => socket_onopen socket
  | SocketErrored => socket_onerror
  | SocketClosed => socket_onclose
  | SocketMessage message => connect_closure (socket_onmessage user message)
  | UiJoinRoom roomId => joinRoom roomId
  | UiLeaveRoom => leaveRoom
  | UiSendFile file targetUserId => sendFile file targetUserId
  | UiAccept => acceptTransfer
  | UiReject => rejectTransfer
  | IceCandidateFound candidate =>
      connect_closure
        (st <- get ;;
         match peerConnectionRef st with
         | Some pc => pc_onicecandidate (pc_target pc) candidate
         | None => ret tt
         end)
  | DataChannelArrived label rs => pc_ondatachannel label rs
  | ChannelMessage fo data => channel_onmessage user token fo data
  | TransferEffect opens fo => transfer_effect opens fo
  | TimerFired t => timer_fired t
  end.

Fixpoint run (evs : list Event) (st : State) : State * list Effect :=
  match evs with
  | [] => (st, [])
  | ev :: evs' =>
      let r := handle ev st in
      let rest := run evs' (state_of r) in
      (fst rest, effects r ++ snd rest)
  end.

End EventLoop.

(** ** Observations on a list of effects *)

(** The frames put on the data channel, in order. *)
Fixpoint sent_frames (effs : list Effect) : list Frame :=
  match effs with
  | [] => []
  | ChannelSend _ f :: effs' => f :: sent_frames effs'
  | _ :: effs' => sent_frames effs'
  end.

(** The records posted to the REST collaborator, in order. *)
Fixpoint persisted (effs : list Effect) : list TransferLog :=
  match effs with
  | [] => []
  | Fetch _ record :: effs' => record :: persisted effs'
  | _ :: effs' => persisted effs'
  end.

Definition is_offer (e : Effect) : bool :=
  match e with
  | WsSend _ (send_offer _ _) => true
  | _ => false
  end.

(** No effect in the list is an offer sent on the signaling socket. *)
Definition no_offer (effs : list Effect) : Prop :=
  forallb (fun e => negb (is_offer e)) effs = true.

(** A handler that sends no offer, whatever the state. *)
Definition quiet {A} (m : M A) : Prop :=
  forall st, no_offer (effects (m st)).

Definition is_accepted_response (ev : Event) : bool :=
  match ev with
  | SocketMessage (transfer_response _ true) => true
  | _ => false
  end.

(** The number of slices of a file of [size] bytes: one for the empty file. *)
Definition slice_count (size : nat) : nat :=
  if size =? 0 then 1 else (size + CHUNK_SIZE - 1) / CHUNK_SIZE.

(** The slices number [k], [k + 1], ... of a file, [n] of them. *)
Definition slices_from (file : File) (k n : nat) : list (list byte) :=
  map (fun i => file_slice file (i * CHUNK_SIZE) (i * CHUNK_SIZE + CHUNK_SIZE))
      (seq k n).

(** The slices of a file, cut at the multiples of [CHUNK_SIZE]. *)
Definition slices (file : File) : list (list byte) :=
  slices_from file 0 (slice_count (file_size file)).

(** The artifacts handed to the browser for download, in order. *)
Fixpoint downloads (effs : list Effect) : list (string * string * list byte) :=
  match effs with
  | [] => []
  | Download name type content :: effs' => (name, type, content) :: downloads effs'
  | _ :: effs' => downloads effs'
  end.

(** The data channel the ref holds is open. *)
Definition channel_open (st : State) : Prop :=
  exists ch, dataChannelRef st = Some ch /\ ch_readyState ch = open.

(** The [file-meta] frame the sender builds for a file. *)
Definition meta_of (user : User) (file : File) : FileMeta := {|
  fm_fileName := file_name file;
  fm_fileSize := Z.of_nat (file_size file);
  fm_fileType := file_type file;
  fm_senderId := user_id user |}.

(** The record the receiver posts for a completed transfer. *)
Definition received_record (user : User) (meta : FileMeta) : TransferLog := {|
  tl_fileName := fm_fileName meta;
  tl_fileSize := fm_fileSize meta;
  tl_fileType := fm_fileType meta;
  tl_sender_id := fm_senderId meta;
  tl_receiver_id := Some (user_id user) |}.

(** The progress the receiver shows with [received] bytes of [declared]. *)
Definition receiver_progress (received : nat) (declared : Z) : JS.number :=
  JS.Math_min (mul (div (JS.of_nat received) (JS.of_Z declared)) 100%float)
              100%float.

(** The progress the sender shows with [sent] bytes of a file of [size]. *)
Definition sender_progress (sent size : nat) : JS.number :=
  JS.Math_min (mul (div (JS.of_nat sent) (JS.of_nat size)) 100%float)
              100%float.

(** ** More observations, for the properties beyond the handlers' contracts *)

Definition is_ws_send (e : Effect) : bool :=
  match e with
  | WsSend _ _ => true
  | _ => false
  end.

Definition is_channel_send (e : Effect) : bool :=
  match e with
  | ChannelSend _ _ => true
  | _ => false
  end.

Definition is_download (e : Effect) : bool :=
  match e with
  | Download _ _ _ => true
  | _ => false
  end.

Definition is_fetch (e : Effect) : bool :=
  match e with
  | Fetch _ _ => true
  | _ => false
  end.

Definition is_response (e : Effect) : bool :=
  match e with
  | WsSend _ (send_transfer_response _ _) => true
  | _ => false
  end.

(** The kinds of effect the sender's code contains: channel sends, toasts,
    the REST call, console lines and timers. *)
Definition sender_effect (e : Effect) : bool :=
  match e with
  | ChannelSend _ _ | Toast _ _ | Fetch _ _ | ConsoleError _
  | SetTimeout _ _ => true
  | _ => false
  end.

(** No effect of the list satisfies [p]. *)
Definition never (p : Effect -> bool) (effs : list Effect) : Prop :=
  forallb (fun e => negb (p e)) effs = true.

(** A handler none of whose effects satisfies [p], whatever the state. *)
Definition silent {A} (p : Effect -> bool) (m : M A) : Prop :=
  forall st, never p (effects (m st)).

(** A handler whose final state is related by [R] to the state it started
    from, whether it returns or throws. *)
Definition keeps {A} (R : State -> State -> Prop) (m : M A) : Prop :=
  forall st, R st (state_of (m st)).

(** The part [f] of the state is the same in [st'] as in [st]. *)
Definition unchanged {X} (f : State -> X) (st st' : State) : Prop :=
  f st' = f st.

(** The running total is the number of bytes in the buffer. *)
Definition buffer_consistent (st : State) : Prop :=
  receivedSizeRef st = length (concat (receivedBufferRef st)).

(** [a'] is [a], possibly with another progress. *)
Definition same_but_progress (a a' : option ActiveTransfer) : Prop :=
  a' = a \/ exists p, a' = Some (with_progress a p).

(** What the sender leaves alone: everything but the progress of the active
    transfer and the ready state of the data channel. *)
Definition sender_frame (st st' : State) : Prop :=
  ws st' = ws st /\
  onlineUsers st' = onlineUsers st /\
  currentRoom st' = currentRoom st /\
  incomingTransfer st' = incomingTransfer st /\
  peerConnectionRef st' = peerConnectionRef st /\
  receivedBufferRef st' = receivedBufferRef st /\
  receivedSizeRef st' = receivedSizeRef st /\
  transferMetaRef st' = transferMetaRef st /\
  pcCreated st' = pcCreated st /\
  chCreated st' = chCreated st /\
  option_map ch_id (dataChannelRef st') = option_map ch_id (dataChannelRef st) /\
  option_map ch_label (dataChannelRef st')
  = option_map ch_label (dataChannelRef st) /\
  same_but_progress (activeTransfer st) (activeTransfer st').

(** The active transfer, if any, carries no file: it was not created by
    [sendFile]. *)
Definition no_file_pending (st : State) : Prop :=
  match activeTransfer st with
  | Some t => at_file t = None
  | None => True
  end.

Definition is_binary (f : Frame) : bool :=
  match f with
  | Binary _ => true
  | Text _ => false
  end.

Definition is_file_end_message (ev : Event) : bool :=
  match ev with
  | ChannelMessage _ (Text file_end) => true
  | _ => false
  end.

Definition is_transfer_effect (ev : Event) : bool :=
  match ev with
  | TransferEffect _ _ => true
  | _ => false
  end.

Definition is_socket_opened (ev : Event) : bool :=
  match ev with
  | SocketOpened _ => true
  | _ => false
  end.

Definition is_send_file (ev : Event) : bool :=
  match ev with
  | UiSendFile _ _ => true
  | _ => false
  end.

Definition is_request_message (ev : Event) : bool :=
  match ev with
  | SocketMessage (transfer_request _ _ _ _ _) => true
  | _ => false
  end.

Definition is_room_message (ev : Event) : bool :=
  match ev with
  | SocketMessage (room_users _) => true
  | SocketMessage (room_joined _) => true
  | SocketMessage room_left => true
  | _ => false
  end.

(** How many elements of a list satisfy [p]. *)
Definition count {A} (p : A -> bool) (l : list A) : nat :=
  length (filter p l).

(** The record the sender posts for a completed transfer. *)
Definition sent_record (user : User) (file : File)
           (targetUserId : option UserId) : TransferLog := {|
  tl_fileName := file_name file;
  tl_fileSize := Z.of_nat (file_size file);
  tl_fileType := file_type file;
  tl_sender_id := user_id user;
  tl_receiver_id := targetUserId |}.

(** What the last [load] handler of a transfer does after its slice. *)
Definition completion_effects (user : User) (token : string)
           (fo : FetchOutcome) (channel : nat) (file : File)
           (targetUserId : option UserId) : list Effect :=
  [ChannelSend channel (Text file_end);
   Toast toast_success "File sent successfully!";
   Fetch token (sent_record user file targetUserId);
   SetTimeout 2000 ClearActiveTransfer]
  ++ match fo with
     | fetch_resolved _ => []
     | fetch_rejected => [ConsoleError "Failed to log transfer:"]
     end.

(** Everything a complete transfer of [file] does on an open channel. *)
Definition transfer_effects (user : User) (token : string)
           (fo : FetchOutcome) (channel : nat) (file : File)
           (targetUserId : option UserId) : list Effect :=
  ChannelSend channel (Text (file_meta (meta_of user file)))
  :: map (fun c => ChannelSend channel (Binary c)) (slices file)
  ++ completion_effects user token fo channel file targetUserId.

(** The state a complete transfer of [file] leaves. *)
Definition transfer_done (file : File) (st : State) : State :=
  setActiveTransfer
    (Some (with_progress (activeTransfer st)
             (sender_progress (file_size file) (file_size file)))) st.

(** The channel's [open] event fires before the timer of the wait. *)
Definition opens_in_time (opens : option N) : bool :=
  match opens with
  | Some ms => (ms <? OPEN_TIMEOUT)%N
  | None => false
  end.

Definition is_open (ch : DataChannel) : bool :=
  match ch_readyState ch with
  | open => true
  | _ => false
  end.

Definition timeout_effects : list Effect :=
  [SetTimeout OPEN_TIMEOUT OpenTimeout;
   Toast toast_error "Data channel failed to open";
   ConsoleError "Error: Data channel open timeout"].

(** 1 if a transfer request is waiting for the user's decision, else 0. *)
Definition pending (st : State) : nat :=
  match incomingTransfer st with
  | Some _ => 1
  | None => 0
  end.

(** The messages of the negotiation: offers, answers and candidates. *)
Definition is_negotiation (e : Effect) : bool :=
  match e with
  | WsSend _ (send_offer _ _) => true
  | WsSend _ (send_answer _ _) => true
  | WsSend _ (send_ice_candidate _ _) => true
  | _ => false
  end.

(** The messages put on the signaling socket, in order. *)
Fixpoint ws_sent (effs : list Effect) : list ClientMsg :=
  match effs with
  | [] => []
  | WsSend _ m :: effs' => m :: ws_sent effs'
  | _ :: effs' => ws_sent effs'
  end.

(** ** The authentication context

    [AuthProvider] keeps the user, the token and a loading flag, and mirrors
    the token in [localStorage].  Its functions await a request to the
    backend, and the provider reacts to other events in the meantime: the
    part of a function that follows the [await] is a step of its own, with
    how the request ended as its argument. *)

Inductive AxiosOutcome (A : Type) :=
| axios_ok (data : A)
| axios_failed (error : string).
Arguments axios_failed {A} error.

(** [response.data] of [/auth/login] and [/auth/register] *)
Record AuthResponse := {
  access_token : string;
  response_user : User
}.

Record AuthState := {
  auth_user : option User;
  auth_token : option string;
  auth_loading : bool;
  stored_token : option string      (* localStorage.getItem('token') *)
}.

(** The state at mount, with what [localStorage] holds. *)
Definition auth_mount (stored : option string) : AuthState := {|
  auth_user := None;
  auth_token := stored;
  auth_loading := true;
  stored_token := stored |}.

Definition logout (st : AuthState) : AuthState := {|
  auth_user := None;
  auth_token := None;
  auth_loading := auth_loading st;
  stored_token := None |}.

Definition set_loading (b : bool) (st : AuthState) : AuthState := {|
  auth_user := auth_user st;
  auth_token := auth_token st;
  auth_loading := b;
  stored_token := stored_token st |}.

(** [login] and [register] from their [await] on (before it they only make
    the request): a failed request throws out of the function before anything
    is set. *)
Definition authenticate (response : AxiosOutcome AuthResponse)
           (st : AuthState) : Outcome AuthResponse * AuthState :=
  match response with
  | axios_ok data =>
      (Returned data,
       {| auth_user := Some (response_user data);
          auth_token := Some (access_token data);
          auth_loading := auth_loading st;
          stored_token := Some (access_token data) |})
  | axios_failed error => (Threw error, st)
  end.

Definition login := authenticate.
Definition register := authenticate.

(** A string or null as a condition. *)
Definition truthy_token (token : option string) : bool :=
  match token with
  | Some t => truthy_string t
  | None => false
  end.

(** The provider, and the requests to [/auth/me] that have not settled. *)
Record AuthSession := {
  session : AuthState;
  me_in_flight : nat
}.

Definition session_mount (stored : option string) : AuthSession :=
  {| session := auth_mount stored; me_in_flight := 0 |}.

Definition on_session (f : AuthState -> AuthState) (s : AuthSession)
  : AuthSession :=
  {| session := f (session s); me_in_flight := me_in_flight s |}.

(** [fetchUser] up to its [await]: the request is made, with the token of the
    render in its header. *)
Definition fetchUser (s : AuthSession) : AuthSession :=
  {| session := session s; me_in_flight := S (me_in_flight s) |}.

(** [fetchUser] from its [await] on: [setUser] with the response, or [logout]
    in the [catch]; the [finally] ends the loading.  Nothing of the state is
    read here: the token went into the request. *)
Definition fetchUser_settled (me : AxiosOutcome User) (st : AuthState)
  : AuthState :=
  set_loading false
    match me with
    | axios_ok data => {|
        auth_user := Some data;
        auth_token := auth_token st;
        auth_loading := auth_loading st;
        stored_token := stored_token st |}
    | axios_failed _ => logout st
    end.

(** The effect with dependency [token]. *)
Definition token_effect (s : AuthSession) : AuthSession :=
  if truthy_token (auth_token (session s)) then fetchUser s
  else on_session (set_loading false) s.

(** What happens to the provider: the response to a login or a registration
    arrives, the user logs out, the token effect runs, a request to
    [/auth/me] settles. *)
Inductive AuthEvent :=
| Login (response : AxiosOutcome AuthResponse)
| Register (response : AxiosOutcome AuthResponse)
| Logout
| TokenEffect
| MeSettled (me : AxiosOutcome User).

Definition auth_handle (ev : AuthEvent) (s : AuthSession) : AuthSession :=
  match ev with
  | Login response => on_session (fun st => snd (login response st)) s
  | Register response => on_session (fun st => snd (register response st)) s
  | Logout => on_session logout s
  | TokenEffect => token_effect s
  | MeSettled me =>
      match me_in_flight s with
      | 0 => s
      | S n => {| session := fetchUser_settled me (session s);
                  me_in_flight := n |}
      end
  end.

Definition auth_run (evs : list AuthEvent) (s : AuthSession) : AuthSession :=
  fold_left (fun s ev => auth_handle ev s) evs s.

(** ** The address of the signaling socket

    Strings are sequences of bytes, the UTF-8 form of the JavaScript string;
    the patterns the source matches are ASCII. *)

(** [s.startsWith(pattern)] *)
Fixpoint startsWith (s pattern : string) {struct pattern} : bool :=
  match pattern with
  | EmptyString => true
  | String a pattern' =>
      match s with
      | EmptyString => false
      | String b s' => Ascii.eqb a b && startsWith s' pattern'
      end
  end.

(** [s.slice(n)] *)
Fixpoint string_drop (n : nat) (s : string) : string :=
  match n, s with
  | S n', String _ s' => string_drop n' s'
  | _, _ => s
  end.

(** [s.replace(pattern, replacement)] for a string pattern and a replacement
    without [$]: the first occurrence is replaced. *)
Fixpoint replace_first (pattern replacement s : string) : string :=
  if startsWith s pattern
  then String.append replacement (string_drop (String.length pattern) s)
  else match s with
       | EmptyString => EmptyString
       | String c s' => String c (replace_first pattern replacement s')
       end.

(** [s.replace(/\/+$/, '')]: the slashes at the end are removed. *)
Fixpoint strip_trailing_slashes (s : string) : string :=
  match s with
  | EmptyString => EmptyString
  | String c s' =>
      match strip_trailing_slashes s' with
      | EmptyString => if Ascii.eqb c "/" then EmptyString
                       else String c EmptyString
      | rest => String c rest
      end
  end.

(** The characters [encodeURIComponent] leaves alone: letters, digits and
    [- _ . ! ~ * ' ( )]. *)
Definition unreserved (c : ascii) : bool :=
  let n := nat_of_ascii c in
  ((65 <=? n) && (n <=? 90)) || ((97 <=? n) && (n <=? 122))
  || ((48 <=? n) && (n <=? 57))
  || existsb (Ascii.eqb c) ["-"; "_"; "."; "!"; "~"; "*"; "'"; "("; ")"]%char.

Definition hex_digit (n : nat) : ascii :=
  if n <? 10 then ascii_of_nat (48 + n) else ascii_of_nat (55 + n).

(** [encodeURIComponent] on the UTF-8 bytes of a well-formed string: every
    byte that is not an unreserved character becomes [%XX]. *)
Fixpoint encodeURIComponent (s : string) : string :=
  match s with
  | EmptyString => EmptyString
  | String c s' =>
      if unreserved c then String c (encodeURIComponent s')
      else String "%"
             (String (hex_digit (nat_of_ascii c / 16))
                (String (hex_digit (nat_of_ascii c mod 16))
                   (encodeURIComponent s')))
  end.

(** [process.env.REACT_APP_BACKEND_URL || 'http://127.0.0.1:8000'] *)
Definition backend_url (env : option string) : string :=
  match env with
  | Some url => if truthy_string url then url else "http://127.0.0.1:8000"
  | None => "http://127.0.0.1:8000"
  end.

Definition wsUrl (backend : string) : string :=
  if startsWith backend "https://"
  then replace_first "https://" "wss://" backend
  else if startsWith backend "http://"
       then replace_first "http://" "ws://" backend
       else backend.

(** The address [connectWebSocket] opens. *)
Definition socket_address (env : option string) (token : string) : string :=
  String.append (strip_trailing_slashes (wsUrl (backend_url env)))
    (String.append "/api/ws/" (encodeURIComponent token)).

Fixpoint string_forallb (p : ascii -> bool) (s : string) : bool :=
  match s with
  | EmptyString => true
  | String c s' => p c && string_forallb p s'
  end.

Fixpoint ends_with_slash (s : string) : bool :=
  match s with
  | EmptyString => false
  | String c EmptyString => Ascii.eqb c "/"
  | String _ s' => ends_with_slash s'
  end.

(** ** Sample data *)

Definition demo_user : User := {| user_id := "1"; user_name := "A" |}.

Definition demo_file (n : nat) : File := {|
  file_name := "report.pdf";
  file_type := "application/pdf";
  file_bytes := repeat x00 n |}.

(** A sender about to transfer [file] to user 2 over channel 0, which is in the
    ready state [rs]. *)
Definition sender_ready (file : File) (rs : ReadyState) : State :=
  setDataChannelRef
    (Some {| ch_id := 0; ch_label := "fileTransfer";
             ch_readyState := rs; ch_handlers := true |})
    (setActiveTransfer
       (Some {| at_fileName := Some (file_name file);
                at_fileSize := Some (Z.of_nat (file_size file));
                at_progress := 0%float;
                at_type := Some sending;
                at_file := Some file;
                at_targetUserId := Some "2" |})
       (setWs (Some 0) initial)).

Definition demo_meta (size : Z) : FileMeta := {|
  fm_fileName := "report.pdf";
  fm_fileSize := size;
  fm_fileType := "application/pdf";
  fm_senderId := "1" |}.

(** The transfer [sendFile] records for [file], and a channel in the ready
    state [rs], as [sender_ready] has them. *)
Definition demo_transfer (file : File) : ActiveTransfer := {|
  at_fileName := Some (file_name file);
  at_fileSize := Some (Z.of_nat (file_size file));
  at_progress := 0%float;
  at_type := Some sending;
  at_file := Some file;
  at_targetUserId := Some "2" |}.

Definition demo_channel (rs : ReadyState) : DataChannel := {|
  ch_id := 0; ch_label := "fileTransfer";
  ch_readyState := rs; ch_handlers := true |}.

(** * Properties *)

(** Unfolds a handler applied to a state down to its result. *)
Ltac run_handler :=
  cbv [outcome state_of effects fst snd];
  cbv [bind ret get modify emit throw try_catch];
  cbn.

(** ** Room presence *)

(** C9: on every [room_users] event the displayed peer list becomes the
    received list without the entries that carry the member's own id, so the
    member never appears in its own list; nothing else happens. *)
Theorem room_users_excludes_self (user : User) (users : list User) (st : State) :
  let r := socket_onmessage user (room_users users) st in
  outcome r = Returned tt /\
  effects r = [] /\
  (forall u, In u (onlineUsers (state_of r)) <->
             In u users /\ user_id u <> user_id user) /\
  ~ In user (onlineUsers (state_of r)) /\
  state_of r = setOnlineUsers (onlineUsers (state_of r)) st.
Proof.
  unfold socket_onmessage. run_handler.
  assert (shown : forall u,
            In u (filter (fun u => negb (user_id u =? user_id user)%string) users)
            <-> In u users /\ user_id u <> user_id user).
  { intro u. rewrite filter_In, negb_true_iff, String.eqb_neq. tauto. }
  split; [reflexivity |].
  split; [reflexivity |].
  split; [exact shown |].
  split; [| reflexivity].
  intro H. apply shown in H. destruct H as [_ H]. now apply H.
Qed.

(** ** The transfer handshake *)

(** C10: without a signaling connection or without a file [sendFile] does
    nothing at all; otherwise it sends exactly one [transfer-request] with the
    name, size and type of the file to the target and records the pending
    transfer with progress 0. *)
Theorem sendFile_guarded (file : option File) (targetUserId : UserId)
        (st : State) :
  let r := sendFile file targetUserId st in
  (ws st = None \/ file = None ->
   r = (Returned tt, st, [])) /\
  (forall s f, ws st = Some s -> file = Some f ->
   outcome r = Returned tt /\
   effects r = [WsSend s (send_transfer_request targetUserId (file_name f)
                            (file_size f) (file_type f))] /\
   state_of r = setActiveTransfer (Some {|
     at_fileName := Some (file_name f);
     at_fileSize := Some (Z.of_nat (file_size f));
     at_progress := 0%float;
     at_type := Some sending;
     at_file := Some f;
     at_targetUserId := Some targetUserId |}) st).
Proof.
  unfold sendFile. split.
  - intros [H | H]; run_handler; rewrite H; [reflexivity |].
    now destruct (ws st).
  - intros s f Hs Hf. subst file. run_handler. rewrite Hs. cbn. auto.
Qed.

Lemma sendFile_guarded_witness :
  sendFile None "2" initial = (Returned tt, initial, []) /\
  effects (sendFile (Some (demo_file 3)) "2" (setWs (Some 0) initial))
  = [WsSend 0 (send_transfer_request "2" "report.pdf" 3 "application/pdf")].
Proof.
  split.
  - apply (proj1 (sendFile_guarded None "2" initial)). right. reflexivity.
  - apply (proj2 (sendFile_guarded (Some (demo_file 3)) "2"
                    (setWs (Some 0) initial)) 0 (demo_file 3));
      reflexivity.
Defined.

(** *** Handlers that never send an offer *)

Lemma no_offer_app (e1 e2 : list Effect) :
  no_offer e1 -> no_offer e2 -> no_offer (e1 ++ e2).
Proof.
  unfold no_offer. intros H1 H2. rewrite forallb_app, H1, H2. reflexivity.
Qed.

Lemma no_offer_In (effs : list Effect) s target sdp :
  no_offer effs -> ~ In (WsSend s (send_offer target sdp)) effs.
Proof.
  unfold no_offer. intros H Hin.
  rewrite forallb_forall in H. apply H in Hin. discriminate Hin.
Qed.

Lemma quiet_ret {A} (a : A) : quiet (ret a).
Proof. intro st. reflexivity. Qed.

Lemma quiet_get : quiet get.
Proof. intro st. reflexivity. Qed.

Lemma quiet_modify (f : State -> State) : quiet (modify f).
Proof. intro st. reflexivity. Qed.

Lemma quiet_throw {A} (e : string) : quiet (@throw A e).
Proof. intro st. reflexivity. Qed.

Lemma quiet_emit (e : Effect) : is_offer e = false -> quiet (emit e).
Proof. intros H st. unfold no_offer. cbn. now rewrite H. Qed.

Lemma quiet_bind {A B} (m : M A) (k : A -> M B) :
  quiet m -> (forall a, quiet (k a)) -> quiet (bind m k).
Proof.
  intros Hm Hk st. specialize (Hm st). unfold bind, effects in *.
  destruct (m st) as [[[a | e] st1] e1]; cbn in *; [| exact Hm].
  specialize (Hk a st1). unfold effects in Hk.
  destruct (k a st1) as [[r st2] e2]. cbn in *. now apply no_offer_app.
Qed.

Lemma quiet_try_catch {A} (body : M A) (handler : string -> M A) :
  quiet body -> (forall e, quiet (handler e)) -> quiet (try_catch body handler).
Proof.
  intros Hm Hk st. specialize (Hm st). unfold try_catch, effects in *.
  destruct (body st) as [[[a | e] st1] e1]; cbn in *; [exact Hm |].
  specialize (Hk e st1). unfold effects in Hk.
  destruct (handler e st1) as [[r st2] e2]. cbn in *. now apply no_offer_app.
Qed.

(** Breaks a handler into its monadic steps; [known] closes the calls to
    handlers that were dealt with before. *)
Ltac quiet_steps_with known :=
  repeat first
    [ known
    | apply quiet_ret | apply quiet_get | apply quiet_modify | apply quiet_throw
    | apply quiet_emit; reflexivity
    | apply quiet_bind; [| intro]
    | apply quiet_try_catch; [| intro]
    | match goal with
      | |- quiet (match ?x with _ => _ end) => destruct x
      end ].

Ltac quiet_steps := quiet_steps_with fail.

Lemma quiet_channel_send (f : Frame) : quiet (channel_send f).
Proof. unfold channel_send. quiet_steps. Qed.

Lemma quiet_logTransfer token fo d : quiet (logTransfer token fo d).
Proof. unfold logTransfer. quiet_steps. Qed.

Lemma quiet_reader_onload user token fo file target offset result :
  quiet (reader_onload user token fo file target offset result).
Proof.
  unfold reader_onload.
  unfold logTransfer_called, logTransfer_resumed.
  quiet_steps_with ltac:(apply quiet_channel_send).
Qed.

Lemma quiet_reader_loop user token fuel fo file target :
  forall offset, quiet (reader_loop user token fuel fo file target offset).
Proof.
  induction fuel as [| fuel IH]; intro offset; cbn [reader_loop].
  - apply quiet_ret.
  - apply quiet_bind; [apply quiet_reader_onload |].
    intros [o again]. cbn [fst snd]. destruct again; [apply IH | apply quiet_ret].
Qed.

Lemma quiet_startFileTransfer user token opens fo :
  quiet (startFileTransfer user token opens fo).
Proof.
  unfold startFileTransfer, wait_for_open, on_channel.
  quiet_steps_with
    ltac:(first [apply quiet_channel_send | apply quiet_reader_loop]).
Qed.

Lemma quiet_handleOffer from sdp : quiet (handleOffer from sdp).
Proof.
  unfold handleOffer, createPeerConnection, on_pc, ws_send. quiet_steps.
Qed.

Lemma quiet_channel_onmessage user token fo data :
  quiet (channel_onmessage user token fo data).
Proof.
  unfold channel_onmessage.
  quiet_steps_with ltac:(apply quiet_logTransfer).
Qed.

Lemma quiet_connect_closure {A} (c : M A) :
  quiet c -> quiet (connect_closure c).
Proof.
  intros H st. specialize (H (setWs None st)).
  unfold connect_closure, effects in *.
  destruct (c (setWs None st)) as [[r st'] effs]. exact H.
Qed.

Lemma quiet_handle user token (ev : Event) :
  is_accepted_response ev = false -> quiet (handle user token ev).
Proof.
  destruct ev as [s | | | m | r | | f t | | | c | l rs | fo d | o fo | t];
    cbn [handle]; intro Hev.
  - unfold socket_onopen. quiet_steps.
  - unfold socket_onerror. quiet_steps.
  - unfold socket_onclose. quiet_steps.
  - apply quiet_connect_closure.
    destruct m as [us | r | | f n1 n2 z ty | f [|] | f d | f d | f c | ty];
      cbn [socket_onmessage]; try discriminate Hev.
    + quiet_steps.
    + quiet_steps.
    + quiet_steps.
    + quiet_steps.
    + quiet_steps.
    + apply quiet_handleOffer.
    + unfold handleAnswer, on_pc. quiet_steps.
    + unfold handleIceCandidate, on_pc. quiet_steps.
    + quiet_steps.
  - unfold joinRoom. quiet_steps.
  - unfold leaveRoom. quiet_steps.
  - unfold sendFile. quiet_steps.
  - unfold acceptTransfer. quiet_steps.
  - unfold rejectTransfer. quiet_steps.
  - apply quiet_connect_closure. unfold pc_onicecandidate. quiet_steps.
  - unfold pc_ondatachannel, setupDataChannel, on_channel. quiet_steps.
  - apply quiet_channel_onmessage.
  - unfold transfer_effect.
    quiet_steps_with ltac:(apply quiet_startFileTransfer).
  - unfold timer_fired. quiet_steps.
Qed.

Lemma run_without_acceptance user token (evs : list Event) :
  forallb (fun ev => negb (is_accepted_response ev)) evs = true ->
  forall st, no_offer (snd (run user token evs st)).
Proof.
  induction evs as [| ev evs IH]; intros Hevs st; cbn [run snd].
  - reflexivity.
  - cbn [forallb] in Hevs. apply andb_true_iff in Hevs as [Hev Hrest].
    apply negb_true_iff in Hev.
    apply no_offer_app; [now apply quiet_handle | now apply IH].
Qed.

(** C4: when the sender receives a [transfer-response] that is not accepted,
    the handler ends normally, shows the rejection toast, clears the active
    transfer and does nothing else (it creates no peer connection and sends
    nothing); the receiver's [rejectTransfer] sends at most the negative
    response; and over any sequence of events that contains no accepted
    [transfer-response], no offer is ever sent on the signaling socket. *)
Theorem rejection_sends_no_offer (user : User) (token : string) :
  (forall from st,
     socket_onmessage user (transfer_response from false) st
     = (Returned tt, setActiveTransfer None st,
        [Toast toast_error "Transfer rejected by recipient"])) /\
  (forall st,
     outcome (rejectTransfer st) = Returned tt /\
     effects (rejectTransfer st)
     = match incomingTransfer st, ws st with
       | Some incoming, Some s =>
           [WsSend s (send_transfer_response (it_from incoming) false)]
       | _, _ => []
       end) /\
  (forall evs st,
     forallb (fun ev => negb (is_accepted_response ev)) evs = true ->
     forall s target sdp,
       ~ In (WsSend s (send_offer target sdp)) (snd (run user token evs st))).
Proof.
  split; [| split].
  - intros from st. reflexivity.
  - intro st. unfold rejectTransfer. run_handler.
    destruct (incomingTransfer st), (ws st); cbn; auto.
  - intros evs st Hevs s target sdp.
    apply no_offer_In. now apply run_without_acceptance.
Qed.

(** The rejected request of the specification: a 1000-byte file is proposed
    to user 2, who rejects. *)
Lemma rejection_sends_no_offer_witness :
  let evs := [SocketOpened 0;
              UiSendFile (Some (demo_file 1000)) "2";
              SocketMessage (transfer_response "2" false)] in
  ~ In (WsSend 0 (send_offer "2" (OfferOf 0)))
       (snd (run demo_user "t" evs initial)) /\
  activeTransfer (fst (run demo_user "t" evs initial)) = None.
Proof.
  split.
  - apply (proj2 (proj2 (rejection_sends_no_offer demo_user "t"))).
    reflexivity.
  - reflexivity.
Defined.

(** ** Negotiation *)

(** C6: an offer nobody asked for, on a mounted provider whose socket has
    opened.  [ws] holds the socket, but the offer handler of that socket
    reads the [ws] of the render that connected it, which is null.  The
    handler creates the peer connection towards the sender of the offer,
    sets the offer as its remote description and the answer it produces as
    its local description, and then throws a [TypeError] at [ws.send]: no
    answer is sent, and nothing at all is put on the socket.  The same
    handler run against the state of the moment would send the answer. *)
Theorem offer_is_not_answered :
  let unsolicited := offer "7" (FromWire "sdp") in
  let connected := fst (run demo_user "t" [SocketOpened 0] initial) in
  let r := handle demo_user "t" (SocketMessage unsolicited) connected in
  ws connected = Some 0 /\
  outcome r = Threw TypeError_null /\
  effects r = [NewPeerConnection 0 "7"] /\
  ws_sent (snd (run demo_user "t"
                    [SocketOpened 0; SocketMessage unsolicited] initial))
  = [] /\
  peerConnectionRef (state_of r)
  = Some {| pc_id := 0; pc_target := "7";
            pc_remoteDescription := Some (FromWire "sdp");
            pc_localDescription := Some (AnswerOf 0);
            pc_candidates := [] |} /\
  ws (state_of r) = Some 0 /\
  effects (socket_onmessage demo_user unsolicited connected)
  = [NewPeerConnection 0 "7"; WsSend 0 (send_answer "7" (AnswerOf 0))].
Proof.
  cbv zeta.
  split; [reflexivity |]. split; [reflexivity |]. split; [reflexivity |].
  split; [reflexivity |]. split; [reflexivity |]. split; reflexivity.
Qed.

(** C7: an [ice-candidate] message, the first time or any later time, never
    throws and has no effect outside the component; it creates no peer
    connection and no data channel, leaves both refs on the objects they
    held, and only adds the candidate to the connection at hand (if there is
    one, and the message carries a candidate). *)
Theorem ice_candidate_allocates_nothing (user : User) (from : UserId)
        (candidate : option Candidate) (st : State) :
  let once := socket_onmessage user (ice_candidate from candidate) st in
  let twice :=
    socket_onmessage user (ice_candidate from candidate) (state_of once) in
  (outcome once = Returned tt /\ effects once = [] /\
   state_of once
   = match peerConnectionRef st, candidate with
     | Some pc, Some c =>
         setPeerConnectionRef (Some (pc_addIceCandidate c pc)) st
     | _, _ => st
     end) /\
  (outcome twice = Returned tt /\ effects twice = [] /\
   pcCreated (state_of twice) = pcCreated st /\
   chCreated (state_of twice) = chCreated st /\
   dataChannelRef (state_of twice) = dataChannelRef st /\
   option_map pc_id (peerConnectionRef (state_of twice))
   = option_map pc_id (peerConnectionRef st) /\
   option_map pc_remoteDescription (peerConnectionRef (state_of twice))
   = option_map pc_remoteDescription (peerConnectionRef st) /\
   option_map pc_localDescription (peerConnectionRef (state_of twice))
   = option_map pc_localDescription (peerConnectionRef st) /\
   activeTransfer (state_of twice) = activeTransfer st).
Proof.
  cbn [socket_onmessage]. unfold handleIceCandidate, on_pc. run_handler.
  destruct (peerConnectionRef st) as [pc |] eqn:Hpc, candidate as [c |];
    cbn; rewrite ?Hpc, ?Nat.eqb_refl; cbn; rewrite ?Hpc, ?Nat.eqb_refl; cbn;
    rewrite ?Hpc; cbn; repeat split; reflexivity.
Qed.

(** ** Persistence *)

Lemma logTransfer_run token (fo : FetchOutcome) (d : TransferLog) (st : State) :
  logTransfer token fo d st
  = (Returned tt, st,
     Fetch token d ::
     match fo with
     | fetch_resolved _ => []
     | fetch_rejected => [ConsoleError "Failed to log transfer:"]
     end).
Proof. unfold logTransfer. run_handler. destruct fo; reflexivity. Qed.

Lemma logTransfer_resumed_run (fo : FetchOutcome) (st : State) :
  logTransfer_resumed fo st
  = (Returned tt, st,
     match fo with
     | fetch_resolved _ => []
     | fetch_rejected => [ConsoleError "Failed to log transfer:"]
     end).
Proof. unfold logTransfer_resumed. run_handler. destruct fo; reflexivity. Qed.

(** The awaited call is the two parts of the call in a row. *)
Lemma logTransfer_parts token (fo : FetchOutcome) (d : TransferLog)
      (st : State) :
  logTransfer token fo d st
  = (logTransfer_called token d ;; logTransfer_resumed fo) st.
Proof.
  rewrite logTransfer_run. unfold logTransfer_called.
  cbv [bind emit]. rewrite logTransfer_resumed_run. reflexivity.
Qed.

Lemma file_end_run user token fo (st : State) (meta : FileMeta) :
  transferMetaRef st = Some meta ->
  channel_onmessage user token fo (Text file_end) st
  = (Returned tt, setActiveTransfer None st,
     [Download (fm_fileName meta) (fm_fileType meta)
               (concat (receivedBufferRef st));
      Toast toast_success "File received successfully!";
      Fetch token (received_record user meta)] ++
     match fo with
     | fetch_resolved _ => []
     | fetch_rejected => [ConsoleError "Failed to log transfer:"]
     end).
Proof.
  intro Hmeta. cbn [channel_onmessage]. cbv [bind get]. rewrite Hmeta.
  cbv [emit modify]. rewrite logTransfer_run. reflexivity.
Qed.

(** C8: [logTransfer] never throws, never changes the state of the component
    and makes one REST call, whether that call succeeds or fails; at
    [file-end] the download, the success toast and the clearing of the active
    transfer are the same in both cases and come before the call, and a
    failed call adds nothing but one line on the console. *)
Theorem persistence_failure_contained (user : User) (token : string)
        (st : State) (meta : FileMeta) (status : nat) :
  transferMetaRef st = Some meta ->
  let good :=
    channel_onmessage user token (fetch_resolved status) (Text file_end) st in
  let bad := channel_onmessage user token fetch_rejected (Text file_end) st in
  (forall fo d st',
     outcome (logTransfer token fo d st') = Returned tt /\
     state_of (logTransfer token fo d st') = st' /\
     persisted (effects (logTransfer token fo d st')) = [d]) /\
  effects good
  = [Download (fm_fileName meta) (fm_fileType meta)
              (concat (receivedBufferRef st));
     Toast toast_success "File received successfully!";
     Fetch token (received_record user meta)] /\
  effects bad = effects good ++ [ConsoleError "Failed to log transfer:"] /\
  outcome bad = Returned tt /\
  state_of bad = state_of good /\
  activeTransfer (state_of bad) = None /\
  persisted (effects bad) = [received_record user meta].
Proof.
  intros Hmeta good bad. subst good bad.
  rewrite !(file_end_run user token _ st Hmeta).
  split.
  - intros fo d st'. rewrite logTransfer_run. destruct fo; repeat split.
  - repeat split.
Qed.

Lemma persistence_failure_contained_witness :
  let st := setTransferMetaRef (Some (demo_meta 3))
              (setReceivedBufferRef [[x01; x02]; [x03]] initial) in
  effects (channel_onmessage demo_user "t" fetch_rejected (Text file_end) st)
  = effects (channel_onmessage demo_user "t" (fetch_resolved 500)
                               (Text file_end) st)
    ++ [ConsoleError "Failed to log transfer:"].
Proof.
  intro st.
  apply (persistence_failure_contained demo_user "t" st (meta := demo_meta 3) 500).
  reflexivity.
Defined.

(** ** The receiver *)

Lemma run_app user token (evs1 evs2 : list Event) (st : State) :
  run user token (evs1 ++ evs2) st
  = (fst (run user token evs2 (fst (run user token evs1 st))),
     snd (run user token evs1 st)
     ++ snd (run user token evs2 (fst (run user token evs1 st)))).
Proof.
  revert st. induction evs1 as [| ev evs1 IH]; intro st; cbn [run app fst snd].
  - now destruct (run user token evs2 st).
  - rewrite IH. cbn [fst snd]. now rewrite app_assoc.
Qed.

Lemma binary_run user token fo (chunk : list byte) (st : State)
      (meta : FileMeta) :
  transferMetaRef st = Some meta ->
  channel_onmessage user token fo (Binary chunk) st
  = (Returned tt,
     setActiveTransfer
       (Some (with_progress (activeTransfer st)
                (receiver_progress (receivedSizeRef st + length chunk)
                                   (fm_fileSize meta))))
       (setReceivedSizeRef (receivedSizeRef st + length chunk)
          (setReceivedBufferRef (receivedBufferRef st ++ [chunk]) st)),
     []).
Proof.
  intro Hmeta. cbn [channel_onmessage]. cbv [bind modify get]. cbn.
  rewrite Hmeta. reflexivity.
Qed.

Lemma run_binary user token fo (chunks : list (list byte)) :
  forall (st : State) (meta : FileMeta),
    transferMetaRef st = Some meta ->
    let r := run user token (map (ChannelMessage fo) (map Binary chunks)) st in
    snd r = [] /\
    receivedBufferRef (fst r) = receivedBufferRef st ++ chunks /\
    receivedSizeRef (fst r) = receivedSizeRef st + length (concat chunks) /\
    transferMetaRef (fst r) = Some meta.
Proof.
  induction chunks as [| chunk chunks IH]; intros st meta Hmeta; cbn [map run].
  - cbn. rewrite app_nil_r, Nat.add_0_r. auto.
  - cbn [handle]. rewrite (binary_run user token fo chunk st Hmeta).
    cbn [state_of effects fst snd app].
    set (st1 := setActiveTransfer _ _).
    destruct (IH st1 meta Hmeta) as (He & Hb & Hs & Hm).
    rewrite He, Hb, Hs, Hm. subst st1. cbn.
    rewrite <- app_assoc, length_app. cbn. repeat split. lia.
Qed.

(** C2: on [file-meta] the receiver keeps the message, starts from an empty
    buffer and a zero counter and shows a receiving transfer at progress 0; on
    a binary frame it appends the frame, adds its length to the counter and
    shows the transfer it showed before with the progress
    [Math.min((received / fileSize) * 100, 100)] and every other field as it
    was (all missing if there was none); on [file-end] it hands
    over one artifact, the concatenation of the buffer, clears the active
    transfer and posts one record.  Over a whole transfer the artifact is the
    concatenation of the frames in arrival order and the counter is its
    length, whatever size was declared. *)
Theorem receiver_reassembles (user : User) (token : string)
        (fo : FetchOutcome) (st : State) (meta : FileMeta) :
  (let r := channel_onmessage user token fo (Text (file_meta meta)) st in
   outcome r = Returned tt /\ effects r = [] /\
   transferMetaRef (state_of r) = Some meta /\
   receivedBufferRef (state_of r) = [] /\
   receivedSizeRef (state_of r) = 0 /\
   activeTransfer (state_of r)
   = Some {| at_fileName := Some (fm_fileName meta);
             at_fileSize := Some (fm_fileSize meta);
             at_progress := 0%float;
             at_type := Some receiving;
             at_file := None; at_targetUserId := None |}) /\
  (forall chunk,
     transferMetaRef st = Some meta ->
     let r := channel_onmessage user token fo (Binary chunk) st in
     outcome r = Returned tt /\ effects r = [] /\
     transferMetaRef (state_of r) = Some meta /\
     receivedBufferRef (state_of r) = receivedBufferRef st ++ [chunk] /\
     receivedSizeRef (state_of r) = receivedSizeRef st + length chunk /\
     exists shown,
       activeTransfer (state_of r) = Some shown /\
       at_progress shown
       = receiver_progress (receivedSizeRef st + length chunk)
                           (fm_fileSize meta) /\
       (at_fileName shown, at_fileSize shown, at_type shown, at_file shown,
        at_targetUserId shown)
       = match activeTransfer st with
         | Some prev => (at_fileName prev, at_fileSize prev, at_type prev,
                         at_file prev, at_targetUserId prev)
         | None => (None, None, None, None, None)
         end) /\
  (transferMetaRef st = Some meta ->
   let r := channel_onmessage user token fo (Text file_end) st in
   outcome r = Returned tt /\
   downloads (effects r)
   = [(fm_fileName meta, fm_fileType meta, concat (receivedBufferRef st))] /\
   persisted (effects r) = [received_record user meta] /\
   activeTransfer (state_of r) = None) /\
  (forall chunks,
     let r := run user token
                (map (ChannelMessage fo)
                     (Text (file_meta meta) :: map Binary chunks
                      ++ [Text file_end])) st in
     downloads (snd r)
     = [(fm_fileName meta, fm_fileType meta, concat chunks)] /\
     receivedSizeRef (fst r) = length (concat chunks) /\
     persisted (snd r) = [received_record user meta] /\
     activeTransfer (fst r) = None).
Proof.
  split; [| split; [| split]].
  - cbn [channel_onmessage]. run_handler. repeat split.
  - intros chunk Hmeta. rewrite (binary_run user token fo chunk st Hmeta).
    cbn [outcome state_of effects fst snd].
    split; [reflexivity |]. split; [reflexivity |].
    split; [exact Hmeta |]. split; [reflexivity |]. split; [reflexivity |].
    eexists. split; [reflexivity |].
    destruct (activeTransfer st); split; reflexivity.
  - intro Hmeta. rewrite (file_end_run user token fo st Hmeta).
    cbn. destruct fo; repeat split.
  - intro chunks. cbn [map run handle]. rewrite map_app, run_app.
    set (r0 := channel_onmessage user token fo (Text (file_meta meta)) st).
    assert (Hmeta : transferMetaRef (state_of r0) = Some meta) by reflexivity.
    destruct (run_binary user token fo chunks (state_of r0) Hmeta)
      as (He & Hb & Hs & Hm).
    cbn [map run handle].
    rewrite (file_end_run user token fo _ Hm). rewrite He, Hb.
    cbn [state_of effects fst snd app].
    change (receivedSizeRef (setActiveTransfer None ?s))
      with (receivedSizeRef s).
    rewrite Hs. cbn. destruct fo; repeat split.
Qed.

(** Two bytes of a declared four: the counter is at 2 and the progress at
    50. *)
Lemma receiver_reassembles_witness :
  let st := setTransferMetaRef (Some (demo_meta 4)) initial in
  let r := channel_onmessage demo_user "t" (fetch_resolved 200)
                             (Binary [x01; x02]) st in
  receivedSizeRef (state_of r) = 2 /\
  option_map at_progress (activeTransfer (state_of r)) = Some 50%float /\
  downloads
    (effects (channel_onmessage demo_user "t" (fetch_resolved 200)
                                (Text file_end) st))
  = [("report.pdf", "application/pdf", [])].
Proof.
  intros st r.
  destruct (receiver_reassembles demo_user "t" (fetch_resolved 200) st
              (demo_meta 4)) as (_ & Hbin & Hend & _).
  destruct (Hbin [x01; x02] eq_refl)
    as (_ & _ & _ & _ & Hsize & shown & Hshown & Hprogress & _).
  split; [exact Hsize |].
  split; [| apply Hend; reflexivity].
  subst r. rewrite Hshown. cbn [option_map]. rewrite Hprogress.
  vm_compute. reflexivity.
Defined.

(** The accepted transfer of the specification, seen from the receiver: two
    chunks of 16384 bytes for a declared size of 32768 give progress 100 and
    an artifact of 32768 bytes. *)
Example receiver_two_chunks :
  let chunk := repeat x00 CHUNK_SIZE in
  let frames := [Text (file_meta (demo_meta 32768)); Binary chunk;
                 Binary chunk] in
  let st := fst (run demo_user "t"
                     (map (ChannelMessage (fetch_resolved 200)) frames)
                     initial) in
  option_map at_progress (activeTransfer st) = Some 100%float /\
  map (fun d => N.of_nat (length (snd d)))
      (downloads (snd (run demo_user "t"
                         [ChannelMessage (fetch_resolved 200) (Text file_end)]
                         st)))
  = [32768%N].
Proof. cbv zeta. split; vm_compute; reflexivity. Qed.

(** ** The sender *)

Lemma CHUNK_SIZE_pos : 0 < CHUNK_SIZE.
Proof. unfold CHUNK_SIZE. lia. Qed.

Lemma slice_count_bounds (size : nat) :
  0 < size ->
  (slice_count size - 1) * CHUNK_SIZE < size <= slice_count size * CHUNK_SIZE.
Proof.
  intro Hsize. unfold slice_count.
  destruct (Nat.eqb_spec size 0) as [-> | _]; [lia |].
  pose proof CHUNK_SIZE_pos as Hc.
  pose proof (Nat.div_mod_eq (size + CHUNK_SIZE - 1) CHUNK_SIZE) as Hdiv.
  pose proof (Nat.mod_upper_bound (size + CHUNK_SIZE - 1) CHUNK_SIZE
                ltac:(lia)) as Hmod.
  set (q := (size + CHUNK_SIZE - 1) / CHUNK_SIZE) in *.
  set (r := (size + CHUNK_SIZE - 1) mod CHUNK_SIZE) in *.
  nia.
Qed.

Lemma slice_count_pos (size : nat) : 0 < slice_count size.
Proof.
  destruct (Nat.eq_dec size 0) as [-> | Hsize]; [cbv; lia |].
  assert (Hpos : 0 < size) by lia.
  pose proof (slice_count_bounds Hpos).
  pose proof CHUNK_SIZE_pos. nia.
Qed.

Lemma slice_count_next (size k : nat) :
  k < slice_count size -> S k * CHUNK_SIZE < size -> S k < slice_count size.
Proof.
  intros Hk Hlt. assert (Hpos : 0 < size) by lia.
  pose proof (slice_count_bounds Hpos). nia.
Qed.

Lemma slice_count_last (size k : nat) :
  k < slice_count size -> size <= S k * CHUNK_SIZE -> slice_count size = S k.
Proof.
  intros Hk Hle. destruct (Nat.eq_dec size 0) as [-> | Hsize].
  - change (slice_count 0) with 1 in *. lia.
  - assert (Hpos : 0 < size) by lia.
    pose proof (slice_count_bounds Hpos). nia.
Qed.

Lemma length_file_slice (file : File) (s : nat) :
  length (file_slice file s (s + CHUNK_SIZE))
  = Nat.min CHUNK_SIZE (file_size file - s).
Proof.
  unfold file_slice, file_size.
  rewrite length_firstn, length_skipn. f_equal. lia.
Qed.

Lemma channel_send_open (f : Frame) (st : State) (ch : DataChannel) :
  dataChannelRef st = Some ch -> ch_readyState ch = open ->
  channel_send f st = (Returned tt, st, [ChannelSend (ch_id ch) f]).
Proof.
  intros Hch Hopen. unfold channel_send. cbv [bind get].
  rewrite Hch, Hopen. reflexivity.
Qed.

Lemma reader_onload_run user token fo file target offset result st :
  channel_open st ->
  exists st' effs,
    reader_onload user token fo file target offset result st
    = (Returned (offset + length result,
                 offset + length result <? file_size file), st', effs) /\
    channel_open st' /\
    sent_frames effs
    = Binary result ::
      (if offset + length result <? file_size file then []
       else [Text file_end]) /\
    activeTransfer st'
    = Some (with_progress (activeTransfer st)
              (sender_progress (offset + length result) (file_size file))).
Proof.
  intros (ch & Hch & Hopen). unfold reader_onload.
  set (o' := offset + length result).
  set (st1 := setActiveTransfer
                (Some (with_progress (activeTransfer st)
                         (sender_progress o' (file_size file)))) st).
  assert (Hch1 : dataChannelRef st1 = Some ch) by exact Hch.
  unfold bind at 1. rewrite (channel_send_open _ st Hch Hopen).
  unfold bind at 1. unfold modify at 1.
  change (setActiveTransfer _ st) with st1.
  destruct (o' <? file_size file).
  - exists st1, [ChannelSend (ch_id ch) (Binary result)].
    repeat split. exists ch. auto.
  - unfold bind at 1. rewrite (channel_send_open _ st1 Hch1 Hopen).
    unfold bind at 1. unfold emit at 1.
    unfold bind at 1. unfold logTransfer_called. unfold emit at 1.
    unfold bind at 1. unfold emit at 1.
    unfold bind at 1. rewrite logTransfer_resumed_run. unfold ret.
    eexists st1, _. split; [reflexivity |].
    split; [exists ch; auto |].
    split; [destruct fo; reflexivity | reflexivity].
Qed.

Lemma reader_loop_run user token fo file target :
  forall fuel k st,
    channel_open st ->
    k < slice_count (file_size file) ->
    slice_count (file_size file) - k <= fuel ->
    exists st' effs,
      reader_loop user token fuel fo file target (k * CHUNK_SIZE) st
      = (Returned true, st', effs) /\
      sent_frames effs
      = map Binary (slices_from file k (slice_count (file_size file) - k))
        ++ [Text file_end].
Proof.
  induction fuel as [| fuel IH]; intros k st Hopen Hk Hfuel; [lia |].
  cbn [reader_loop]. unfold readSlice.
  set (result := file_slice file (k * CHUNK_SIZE) (k * CHUNK_SIZE + CHUNK_SIZE)).
  destruct (reader_onload_run user token fo file target (k * CHUNK_SIZE)
              result Hopen) as (st1 & effs1 & Hrun & Hopen1 & Hframes & _).
  unfold bind at 1. rewrite Hrun. cbn [fst snd].
  assert (Hlen : length result
                 = Nat.min CHUNK_SIZE (file_size file - k * CHUNK_SIZE))
    by apply length_file_slice.
  destruct (Nat.ltb_spec (k * CHUNK_SIZE + length result) (file_size file))
    as [Hmore | Hdone].
  - assert (Hfull : k * CHUNK_SIZE + length result = S k * CHUNK_SIZE) by lia.
    rewrite Hfull in *.
    assert (Hk' : S k < slice_count (file_size file))
      by now apply slice_count_next.
    destruct (IH (S k) st1 Hopen1 Hk' ltac:(lia))
      as (st2 & effs2 & Hrun2 & Hframes2).
    rewrite Hrun2. exists st2, (effs1 ++ effs2). split; [reflexivity |].
    replace (slice_count (file_size file) - k)
      with (S (slice_count (file_size file) - S k)) by lia.
    unfold slices_from in *. cbn [seq map].
    assert (Happ : forall e1 e2,
               sent_frames (e1 ++ e2) = sent_frames e1 ++ sent_frames e2).
    { induction e1 as [| [] e1 IHe]; intro e2; cbn; rewrite ?IHe; reflexivity. }
    rewrite Happ, Hframes, Hframes2. reflexivity.
  - assert (Hlast : slice_count (file_size file) = S k)
      by (apply slice_count_last; [assumption | lia]).
    exists st1, (effs1 ++ []). split; [reflexivity |].
    rewrite app_nil_r, Hframes, Hlast.
    replace (S k - k) with 1 by lia. reflexivity.
Qed.

Lemma firstn_plus {A} (a b : nat) (l : list A) :
  firstn (a + b) l = firstn a l ++ firstn b (skipn a l).
Proof.
  revert l. induction a as [| a IH]; intros [| x l]; cbn;
    rewrite ?firstn_nil; try reflexivity.
  f_equal. apply IH.
Qed.

Lemma concat_slices_from (file : File) (n k : nat) :
  concat (slices_from file k n)
  = firstn (n * CHUNK_SIZE) (skipn (k * CHUNK_SIZE) (file_bytes file)).
Proof.
  revert k. induction n as [| n IH]; intro k; [reflexivity |].
  unfold slices_from in *. cbn [seq map concat]. rewrite IH.
  unfold file_slice.
  replace (k * CHUNK_SIZE + CHUNK_SIZE - k * CHUNK_SIZE) with CHUNK_SIZE by lia.
  replace (S k * CHUNK_SIZE) with (CHUNK_SIZE + k * CHUNK_SIZE) by lia.
  rewrite <- skipn_skipn.
  replace (S n * CHUNK_SIZE) with (CHUNK_SIZE + n * CHUNK_SIZE) by lia.
  now rewrite firstn_plus.
Qed.

Lemma slices_cover (file : File) : concat (slices file) = file_bytes file.
Proof.
  change (slices file) with (slices_from file 0 (slice_count (file_size file))).
  rewrite concat_slices_from. cbn [Nat.mul skipn].
  apply firstn_all2. fold (file_size file).
  destruct (Nat.eq_dec (file_size file) 0) as [-> | Hsize]; [lia |].
  assert (Hpos : 0 < file_size file) by lia.
  pose proof (slice_count_bounds Hpos). lia.
Qed.

Lemma slices_full (file : File) (i : nat) :
  S i < length (slices file) ->
  length (nth i (slices file) []) = CHUNK_SIZE.
Proof.
  unfold slices, slices_from. rewrite length_map, length_seq. intro Hi.
  set (cut := fun i => file_slice file (i * CHUNK_SIZE)
                         (i * CHUNK_SIZE + CHUNK_SIZE)).
  rewrite (nth_indep _ [] (cut 0)) by (rewrite length_map, length_seq; lia).
  rewrite map_nth, seq_nth by lia. cbn [Nat.add]. unfold cut.
  rewrite length_file_slice.
  assert (Hpos : 0 < file_size file).
  { destruct (Nat.eq_dec (file_size file) 0) as [E | ]; [| lia].
    rewrite E in Hi. change (slice_count 0) with 1 in Hi. lia. }
  pose proof (slice_count_bounds Hpos). nia.
Qed.

Lemma slices_bounded (file : File) :
  Forall (fun c => length c <= CHUNK_SIZE) (slices file).
Proof.
  unfold slices, slices_from. apply Forall_map, Forall_forall. intros i _.
  rewrite length_file_slice. lia.
Qed.

Lemma slices_nth (file : File) (i : nat) :
  i < length (slices file) ->
  nth i (slices file) []
  = file_slice file (i * CHUNK_SIZE) (i * CHUNK_SIZE + CHUNK_SIZE).
Proof.
  unfold slices, slices_from. rewrite length_map, length_seq. intro Hi.
  set (cut := fun i => file_slice file (i * CHUNK_SIZE)
                         (i * CHUNK_SIZE + CHUNK_SIZE)).
  rewrite (nth_indep _ [] (cut 0)) by (rewrite length_map, length_seq; lia).
  now rewrite map_nth, seq_nth by lia.
Qed.

Lemma slice_count_le (size : nat) : slice_count size <= S size.
Proof.
  destruct (Nat.eq_dec size 0) as [-> | Hsize].
  - change (slice_count 0) with 1. lia.
  - assert (Hpos : 0 < size) by lia.
    pose proof (slice_count_bounds Hpos). pose proof CHUNK_SIZE_pos. nia.
Qed.

(** What [startFileTransfer] does once the channel is open. *)
Lemma send_phase user token fo file target (st : State) :
  channel_open st ->
  exists st' effs,
    (channel_send (Text (file_meta (meta_of user file))) ;;
     reader_loop user token (S (file_size file)) fo file target 0 ;;
     ret tt) st
    = (Returned tt, st', effs) /\
    sent_frames effs
    = Text (file_meta (meta_of user file))
      :: map Binary (slices file) ++ [Text file_end].
Proof.
  intro Hopen. pose proof Hopen as (ch & Hch & Hrs).
  destruct (reader_loop_run user token fo file target (fuel := S (file_size file))
              (k := 0) Hopen (slice_count_pos _))
    as (st' & effs & Hrun & Hframes).
  { pose proof (slice_count_le (file_size file)). lia. }
  change (0 * CHUNK_SIZE) with 0 in Hrun.
  rewrite Nat.sub_0_r in Hframes.
  unfold bind at 1. rewrite (channel_send_open _ st Hch Hrs).
  unfold bind at 1. rewrite Hrun. unfold ret.
  eexists st', _. split; [reflexivity |].
  cbn [app sent_frames]. rewrite app_nil_r, Hframes. reflexivity.
Qed.

Lemma wait_for_open_in_time (ms : N) (st : State) (ch : DataChannel) :
  dataChannelRef st = Some ch -> (ms < OPEN_TIMEOUT)%N ->
  wait_for_open (Some ms) st
  = (Returned tt, setDataChannelRef (Some (ch_with_readyState open ch)) st,
     [SetTimeout OPEN_TIMEOUT OpenTimeout]).
Proof.
  intros Hch Hms. unfold wait_for_open, on_channel.
  apply N.ltb_lt in Hms. rewrite Hms.
  cbv [bind emit get modify]. rewrite Hch. cbn [app]. rewrite Hch.
  now rewrite Nat.eqb_refl.
Qed.

Lemma wait_for_open_late (opens : option N) (st : State) :
  (forall ms, opens = Some ms -> (OPEN_TIMEOUT <= ms)%N) ->
  wait_for_open opens st
  = (Threw "Error: Data channel open timeout", st,
     [SetTimeout OPEN_TIMEOUT OpenTimeout]).
Proof.
  intro Hlate. unfold wait_for_open. destruct opens as [ms |].
  - specialize (Hlate ms eq_refl). apply N.ltb_ge in Hlate. rewrite Hlate.
    reflexivity.
  - reflexivity.
Qed.

(** C1: with a pending transfer that holds a file, and a data channel that is
    open or opens before the timeout, [startFileTransfer] ends normally and
    puts on the channel, in this order: one [file-meta] frame declaring the
    size of the file, the slices of the file cut at the multiples of 16384
    from offset 0 as binary frames, and one [file-end] frame.  Every slice but
    the last has 16384 bytes, none has more, and together they are the file,
    so their total length is the declared size. *)
Theorem startFileTransfer_frames (user : User) (token : string)
        (opens : option N) (fo : FetchOutcome) (st : State)
        (t : ActiveTransfer) (file : File) (ch : DataChannel) :
  activeTransfer st = Some t ->
  at_file t = Some file ->
  dataChannelRef st = Some ch ->
  (ch_readyState ch = open \/
   exists ms, opens = Some ms /\ (ms < OPEN_TIMEOUT)%N) ->
  let r := startFileTransfer user token opens fo st in
  outcome r = Returned tt /\
  sent_frames (effects r)
  = Text (file_meta (meta_of user file))
    :: map Binary (slices file) ++ [Text file_end] /\
  N.of_nat CHUNK_SIZE = 16384%N /\
  (forall i, i < length (slices file) ->
     nth i (slices file) []
     = file_slice file (i * CHUNK_SIZE) (i * CHUNK_SIZE + CHUNK_SIZE)) /\
  (forall i, S i < length (slices file) ->
     length (nth i (slices file) []) = CHUNK_SIZE) /\
  Forall (fun c => length c <= CHUNK_SIZE) (slices file) /\
  concat (slices file) = file_bytes file /\
  Z.of_nat (length (concat (slices file))) = fm_fileSize (meta_of user file).
Proof.
  intros Hact Hfile Hch Hready r.
  assert (Hrun : exists st' effs,
             r = (Returned tt, st', effs) /\
             sent_frames effs
             = Text (file_meta (meta_of user file))
               :: map Binary (slices file) ++ [Text file_end]).
  { subst r. unfold startFileTransfer.
    unfold bind at 1. unfold get at 1. rewrite Hact, Hfile, Hch.
    fold (meta_of user file).
    destruct (ch_readyState ch) eqn:Hrs.
    2: { destruct (send_phase user token fo file (at_targetUserId t)
                     (st := st)) as (st' & effs & Hsend & Hframes).
         { exists ch. auto. }
         unfold bind at 1. unfold ret at 1. rewrite Hsend.
         eexists st', _. split; [reflexivity | exact Hframes]. }
    all: destruct Hready as [Habs | (ms & -> & Hms)]; [discriminate Habs |].
    all: unfold bind at 1; unfold try_catch; unfold bind at 1;
      rewrite (wait_for_open_in_time st Hch Hms); unfold ret at 1;
      destruct (send_phase user token fo file (at_targetUserId t)
                  (st := setDataChannelRef
                           (Some (ch_with_readyState open ch)) st))
        as (st' & effs & Hsend & Hframes);
      [ eexists; split; reflexivity
      | rewrite Hsend; eexists st', _; split; [reflexivity | exact Hframes] ]. }
  destruct Hrun as (st' & effs & Hrun & Hframes). rewrite Hrun.
  cbn [outcome effects fst snd].
  split; [reflexivity |]. split; [exact Hframes |].
  split; [reflexivity |].
  split; [apply slices_nth |].
  split; [apply slices_full |].
  split; [apply slices_bounded |].
  split; [apply slices_cover |].
  rewrite slices_cover. reflexivity.
Qed.

Lemma startFileTransfer_frames_witness :
  sent_frames
    (effects (startFileTransfer demo_user "t" (Some 150%N) (fetch_resolved 200)
                                (sender_ready (demo_file 3) connecting)))
  = Text (file_meta (meta_of demo_user (demo_file 3)))
    :: map Binary (slices (demo_file 3)) ++ [Text file_end].
Proof.
  apply (@startFileTransfer_frames demo_user "t" (Some 150%N)
           (fetch_resolved 200)
           (sender_ready (demo_file 3) connecting)
           {| at_fileName := Some "report.pdf";
              at_fileSize := Some 3%Z;
              at_progress := 0%float;
              at_type := Some sending;
              at_file := Some (demo_file 3);
              at_targetUserId := Some "2" |}
           (demo_file 3)
           {| ch_id := 0; ch_label := "fileTransfer";
              ch_readyState := connecting; ch_handlers := true |}).
  - reflexivity.
  - reflexivity.
  - reflexivity.
  - right. exists 150%N. split; reflexivity.
Defined.

(** The accepted transfer of the specification, seen from the sender: a file
    of 32768 bytes leaves as [file-meta], two binary frames of 16384 bytes and
    [file-end], and the sender then shows progress 100. *)
Example sender_two_chunks :
  let r := startFileTransfer demo_user "t" None (fetch_resolved 200)
                             (sender_ready (demo_file (N.to_nat 32768)) open) in
  map (fun f => match f with
                | Binary data => Some (N.of_nat (length data))
                | Text _ => None
                end) (sent_frames (effects r))
  = [None; Some 16384%N; Some 16384%N; None] /\
  option_map at_progress (activeTransfer (state_of r)) = Some 100%float.
Proof. cbv zeta. split; vm_compute; reflexivity. Qed.

(** When the channel is not open and does not open before the timeout,
    [startFileTransfer] reports the failure and returns, and the state is
    exactly what it was. *)
Lemma startFileTransfer_timeout (user : User) (token : string)
      (opens : option N) (fo : FetchOutcome) (st : State)
      (t : ActiveTransfer) (file : File) (ch : DataChannel) :
  activeTransfer st = Some t ->
  at_file t = Some file ->
  dataChannelRef st = Some ch ->
  ch_readyState ch <> open ->
  (forall ms, opens = Some ms -> (OPEN_TIMEOUT <= ms)%N) ->
  startFileTransfer user token opens fo st
  = (Returned tt, st,
     [SetTimeout OPEN_TIMEOUT OpenTimeout;
      Toast toast_error "Data channel failed to open";
      ConsoleError "Error: Data channel open timeout"]).
Proof.
  intros Hact Hfile Hch Hrs Hlate. unfold startFileTransfer.
  unfold bind at 1. unfold get at 1. rewrite Hact, Hfile, Hch.
  destruct (ch_readyState ch); [| congruence | |];
    unfold bind at 1; unfold try_catch; unfold bind at 1;
    rewrite (wait_for_open_late st Hlate); reflexivity.
Qed.

(** C5: a sender whose data channel is still connecting and never opens.
    After the 20000 ms timer the attempt is given up: nothing was put on the
    channel, the failure toast is shown and the handler returns without
    starting again.  The pending transfer, however, is still the active
    transfer: the state is the one the attempt started from, and the effect
    that starts transfers, run on it once more with a channel that opens,
    sends the file. *)
Theorem open_timeout_keeps_pending_transfer :
  let st := sender_ready (demo_file 1000) connecting in
  let r := startFileTransfer demo_user "t" None (fetch_resolved 200) st in
  outcome r = Returned tt /\
  effects r = [SetTimeout 20000 OpenTimeout;
               Toast toast_error "Data channel failed to open";
               ConsoleError "Error: Data channel open timeout"] /\
  sent_frames (effects r) = [] /\
  state_of r = st /\
  option_map at_fileName (activeTransfer (state_of r))
  = Some (Some "report.pdf") /\
  sent_frames (effects (transfer_effect demo_user "t" (Some 0%N)
                                        (fetch_resolved 200) (state_of r)))
  = Text (file_meta (demo_meta 1000))
    :: map Binary (slices (demo_file 1000)) ++ [Text file_end].
Proof.
  cbv zeta.
  rewrite (@startFileTransfer_timeout demo_user "t" None (fetch_resolved 200)
             (sender_ready (demo_file 1000) connecting) _ (demo_file 1000) _
             eq_refl eq_refl eq_refl);
    [| discriminate | discriminate].
  cbn [outcome state_of effects fst snd].
  split; [reflexivity |]. split; [reflexivity |]. split; [reflexivity |].
  split; [reflexivity |]. split; [reflexivity |].
  vm_compute. reflexivity.
Qed.

(** ** Progress *)

Lemma Prim2SF_100 :
  Prim2SF 100%float = S754_finite false 7036874417766400 (-46).
Proof. vm_compute. reflexivity. Qed.

Lemma Prim2SF_0 : Prim2SF 0%float = S754_zero false.
Proof. vm_compute. reflexivity. Qed.

(** Whatever the first argument, [Math.min(p, 100)] is NaN or at most 100. *)
Lemma Math_min_capped (p : JS.number) :
  JS.Math_min p 100%float = nan \/
  JS.le (JS.Math_min p 100%float) 100%float = true.
Proof.
  unfold JS.Math_min, JS.le.
  destruct (is_nan p || is_nan 100%float); [now left | right].
  destruct (ltb p 100%float) eqn:Hlt.
  - rewrite FloatAxioms.ltb_spec in Hlt. rewrite FloatAxioms.leb_spec.
    unfold SFltb in Hlt. unfold SFleb.
    destruct (SFcompare (Prim2SF p) (Prim2SF 100%float)) as [[] |];
      congruence.
  - destruct (ltb 100%float p); [reflexivity |].
    destruct (is_zero p && get_sign p) eqn:Hz; [| reflexivity].
    apply andb_true_iff in Hz as [Hz _].
    unfold is_zero in Hz. rewrite FloatAxioms.leb_spec.
    rewrite FloatAxioms.eqb_spec in Hz. rewrite Prim2SF_100.
    change zero with 0%float in Hz. rewrite Prim2SF_0 in Hz.
    unfold SFeqb in Hz. unfold SFleb.
    destruct (Prim2SF p) as [s | s | | s m e]; cbn in Hz;
      try discriminate Hz.
    all: try (destruct s; discriminate Hz).
    reflexivity.
Qed.

(** C3: the empty file.  The sender reads one empty slice, so its progress
    goes from 0 to [Math.min((0 / 0) * 100, 100)], which is NaN; the receiver,
    given the frames the sender sent, computes the same from the declared size
    0 and the empty chunk.  NaN is neither at least the progress before it nor
    at most 100. *)
Theorem empty_file_progress_is_nan :
  let st := sender_ready (demo_file 0) open in
  let r := startFileTransfer demo_user "t" None (fetch_resolved 200) st in
  let received :=
    fst (run demo_user "t"
             (map (ChannelMessage (fetch_resolved 200))
                  [Text (file_meta (demo_meta 0)); Binary []])
             initial) in
  sent_frames (effects r)
  = [Text (file_meta (demo_meta 0)); Binary []; Text file_end] /\
  option_map at_progress (activeTransfer st) = Some 0%float /\
  option_map at_progress (activeTransfer (state_of r)) = Some nan /\
  option_map at_progress (activeTransfer received) = Some nan /\
  JS.le 0%float nan = false /\
  JS.le nan 100%float = false.
Proof.
  cbv zeta.
  split; [vm_compute; reflexivity |].
  split; [vm_compute; reflexivity |].
  split; [vm_compute; reflexivity |].
  split; [vm_compute; reflexivity |].
  split; vm_compute; reflexivity.
Qed.

(** * Further properties of the provider *)

(** ** Two small logics over handlers: effects that never occur, and state
    that is kept *)

Section Silence.

Variable p : Effect -> bool.

Lemma never_app (e1 e2 : list Effect) :
  never p e1 -> never p e2 -> never p (e1 ++ e2).
Proof.
  unfold never. intros H1 H2. now rewrite forallb_app, H1, H2.
Qed.

Lemma never_count (effs : list Effect) : never p effs -> count p effs = 0.
Proof.
  unfold never, count. induction effs as [| e effs IH]; cbn; [reflexivity |].
  intro H. apply andb_true_iff in H as [He Hrest].
  apply negb_true_iff in He. rewrite He. now apply IH.
Qed.

Lemma never_In (effs : list Effect) (e : Effect) :
  never p effs -> In e effs -> p e = false.
Proof.
  unfold never. intros H Hin. rewrite forallb_forall in H.
  apply H in Hin. now apply negb_true_iff.
Qed.

Lemma silent_ret {A} (a : A) : silent p (ret a).
Proof. intro st. reflexivity. Qed.

Lemma silent_get : silent p get.
Proof. intro st. reflexivity. Qed.

Lemma silent_modify (f : State -> State) : silent p (modify f).
Proof. intro st. reflexivity. Qed.

Lemma silent_throw {A} (e : string) : silent p (@throw A e).
Proof. intro st. reflexivity. Qed.

Lemma silent_emit (e : Effect) : p e = false -> silent p (emit e).
Proof. intros H st. unfold never. cbn. now rewrite H. Qed.

Lemma silent_bind {A B} (m : M A) (k : A -> M B) :
  silent p m -> (forall a, silent p (k a)) -> silent p (bind m k).
Proof.
  intros Hm Hk st. specialize (Hm st). unfold bind, effects in *.
  destruct (m st) as [[[a | e] st1] e1]; cbn in *; [| exact Hm].
  specialize (Hk a st1). unfold effects in Hk.
  destruct (k a st1) as [[r st2] e2]. cbn in *. now apply never_app.
Qed.

Lemma silent_try_catch {A} (body : M A) (handler : string -> M A) :
  silent p body -> (forall e, silent p (handler e)) ->
  silent p (try_catch body handler).
Proof.
  intros Hm Hk st. specialize (Hm st). unfold try_catch, effects in *.
  destruct (body st) as [[[a | e] st1] e1]; cbn in *; [exact Hm |].
  specialize (Hk e st1). unfold effects in Hk.
  destruct (handler e st1) as [[r st2] e2]. cbn in *. now apply never_app.
Qed.

End Silence.

Ltac silent_steps_with known :=
  repeat first
    [ known
    | apply silent_ret | apply silent_get | apply silent_modify
    | apply silent_throw
    | apply silent_emit; reflexivity
    | apply silent_bind; [| intro]
    | apply silent_try_catch; [| intro]
    | match goal with
      | |- silent _ (match ?x with _ => _ end) => destruct x
      end ].

Ltac silent_steps := silent_steps_with fail.

Section Keeping.

Variable R : State -> State -> Prop.
Hypothesis R_refl : forall st, R st st.
Hypothesis R_trans : forall st1 st2 st3, R st1 st2 -> R st2 st3 -> R st1 st3.

Lemma keeps_ret {A} (a : A) : keeps R (ret a).
Proof. intro st. apply R_refl. Qed.

Lemma keeps_get : keeps R get.
Proof. intro st. apply R_refl. Qed.

Lemma keeps_emit (e : Effect) : keeps R (emit e).
Proof. intro st. apply R_refl. Qed.

Lemma keeps_throw {A} (e : string) : keeps R (@throw A e).
Proof. intro st. apply R_refl. Qed.

Lemma keeps_modify (f : State -> State) :
  (forall st, R st (f st)) -> keeps R (modify f).
Proof. intros H st. apply H. Qed.

Lemma keeps_bind {A B} (m : M A) (k : A -> M B) :
  keeps R m -> (forall a, keeps R (k a)) -> keeps R (bind m k).
Proof.
  intros Hm Hk st. specialize (Hm st). unfold bind, state_of in *.
  destruct (m st) as [[[a | e] st1] e1]; cbn in *; [| exact Hm].
  specialize (Hk a st1). unfold state_of in Hk.
  destruct (k a st1) as [[r st2] e2]. cbn in *. eauto.
Qed.

Lemma keeps_try_catch {A} (body : M A) (handler : string -> M A) :
  keeps R body -> (forall e, keeps R (handler e)) ->
  keeps R (try_catch body handler).
Proof.
  intros Hm Hk st. specialize (Hm st). unfold try_catch, state_of in *.
  destruct (body st) as [[[a | e] st1] e1]; cbn in *; [exact Hm |].
  specialize (Hk e st1). unfold state_of in Hk.
  destruct (handler e st1) as [[r st2] e2]. cbn in *. eauto.
Qed.

End Keeping.

Lemma same_but_progress_trans (a b c : option ActiveTransfer) :
  same_but_progress a b -> same_but_progress b c -> same_but_progress a c.
Proof.
  intros [-> | (p & ->)] [-> | (q & ->)].
  - now left.
  - right. now exists q.
  - right. now exists p.
  - right. exists q. now destruct a.
Qed.

Lemma sender_frame_refl (st : State) : sender_frame st st.
Proof. unfold sender_frame. repeat split. now left. Qed.

Lemma sender_frame_trans (st1 st2 st3 : State) :
  sender_frame st1 st2 -> sender_frame st2 st3 -> sender_frame st1 st3.
Proof.
  unfold sender_frame.
  intros (A1 & A2 & A3 & A4 & A5 & A6 & A7 & A8 & A9 & A10 & A11 & A12 & A13)
         (B1 & B2 & B3 & B4 & B5 & B6 & B7 & B8 & B9 & B10 & B11 & B12 & B13).
  repeat split; try congruence.
  eapply same_but_progress_trans; eassumption.
Qed.

Ltac keeps_steps_with known :=
  repeat first
    [ known
    | apply keeps_ret; apply sender_frame_refl
    | apply keeps_get; apply sender_frame_refl
    | apply keeps_emit; apply sender_frame_refl
    | apply keeps_throw; apply sender_frame_refl
    | apply (keeps_bind sender_frame_trans); [| intro]
    | apply (keeps_try_catch sender_frame_trans); [| intro]
    | match goal with
      | |- keeps _ (match ?x with _ => _ end) => destruct x
      end ].

Lemma keeps_set_progress (p : JS.number) :
  keeps sender_frame
    (modify (fun st => setActiveTransfer
                         (Some (with_progress (activeTransfer st) p)) st)).
Proof.
  apply keeps_modify. intro st. unfold sender_frame. cbn.
  repeat split. right. now exists p.
Qed.

Lemma keeps_channel_send (f : Frame) : keeps sender_frame (channel_send f).
Proof. unfold channel_send. keeps_steps_with fail. Qed.

Lemma keeps_logTransfer token fo d : keeps sender_frame (logTransfer token fo d).
Proof. intro st. rewrite logTransfer_run. apply sender_frame_refl. Qed.

Lemma keeps_logTransfer_resumed fo : keeps sender_frame (logTransfer_resumed fo).
Proof. intro st. rewrite logTransfer_resumed_run. apply sender_frame_refl. Qed.

Lemma keeps_reader_onload user token fo file target offset result :
  keeps sender_frame (reader_onload user token fo file target offset result).
Proof.
  unfold reader_onload, logTransfer_called.
  keeps_steps_with
    ltac:(first [ apply keeps_channel_send | apply keeps_logTransfer_resumed
                | apply keeps_set_progress ]).
Qed.

Lemma keeps_reader_loop user token fuel fo file target :
  forall offset,
    keeps sender_frame (reader_loop user token fuel fo file target offset).
Proof.
  induction fuel as [| fuel IH]; intro offset; cbn [reader_loop].
  - apply keeps_ret, sender_frame_refl.
  - apply (keeps_bind sender_frame_trans); [apply keeps_reader_onload |].
    intros [o again]. cbn [fst snd].
    destruct again; [apply IH | apply keeps_ret, sender_frame_refl].
Qed.

Lemma keeps_open_channel (id : nat) :
  keeps sender_frame (on_channel id (ch_with_readyState open)).
Proof.
  apply keeps_modify. intro st. unfold sender_frame.
  destruct (dataChannelRef st) as [ch |] eqn:Hch;
    [destruct (ch_id ch =? id) |]; cbn; rewrite ?Hch;
    repeat split; now left.
Qed.

Lemma keeps_startFileTransfer user token opens fo :
  keeps sender_frame (startFileTransfer user token opens fo).
Proof.
  unfold startFileTransfer, wait_for_open.
  keeps_steps_with
    ltac:(first [ apply keeps_channel_send | apply keeps_reader_loop
                | apply keeps_open_channel ]).
Qed.

Lemma never_weaken (p q : Effect -> bool) (effs : list Effect) :
  (forall e, p e = true -> q e = true) -> never q effs -> never p effs.
Proof.
  unfold never. intros Hpq H. rewrite forallb_forall in *. intros e Hin.
  specialize (H e Hin). destruct (p e) eqn:Hp; [| reflexivity].
  now rewrite (Hpq e Hp) in H.
Qed.

(** The effects of the sender are of the kinds listed in [sender_effect]. *)
Lemma sender_effects_only user token opens fo :
  silent (fun e => negb (sender_effect e))
         (startFileTransfer user token opens fo).
Proof.
  assert (Hsend : forall f, silent (fun e => negb (sender_effect e))
                                   (channel_send f)).
  { intro f. unfold channel_send. silent_steps. }
  assert (Hlog : silent (fun e => negb (sender_effect e))
                        (logTransfer_resumed fo)).
  { unfold logTransfer_resumed. silent_steps. }
  assert (Hload : forall file target offset result,
             silent (fun e => negb (sender_effect e))
                    (reader_onload user token fo file target offset result)).
  { intros. unfold reader_onload, logTransfer_called.
    silent_steps_with ltac:(first [apply Hsend | apply Hlog]). }
  assert (Hloop : forall fuel file target offset,
             silent (fun e => negb (sender_effect e))
                    (reader_loop user token fuel fo file target offset)).
  { induction fuel as [| fuel IH]; intros file target offset;
      cbn [reader_loop].
    - apply silent_ret.
    - apply silent_bind; [apply Hload |].
      intros [o again]. cbn [fst snd].
      destruct again; [apply IH | apply silent_ret]. }
  unfold startFileTransfer, wait_for_open, on_channel.
  silent_steps_with ltac:(first [apply Hsend | apply Hloop]).
Qed.

Lemma startFileTransfer_never user token opens fo (p : Effect -> bool) st :
  (forall e, p e = true -> sender_effect e = false) ->
  never p (effects (startFileTransfer user token opens fo st)).
Proof.
  intro Hp. apply never_weaken with (q := fun e => negb (sender_effect e)).
  - intros e He. now rewrite (Hp e He).
  - apply sender_effects_only.
Qed.

Lemma unchanged_refl {X} (f : State -> X) (st : State) : unchanged f st st.
Proof. reflexivity. Qed.

Lemma unchanged_trans {X} (f : State -> X) (st1 st2 st3 : State) :
  unchanged f st1 st2 -> unchanged f st2 st3 -> unchanged f st1 st3.
Proof. unfold unchanged. congruence. Qed.

(** ** What the negotiation handlers do, in full *)

Lemma createOffer_run (targetUserId : UserId) (st : State) :
  createOffer targetUserId st
  = (match ws st with
     | Some _ => Returned tt
     | None => Threw TypeError_null
     end,
     setPeerConnectionRef
       (Some {| pc_id := pcCreated st; pc_target := targetUserId;
                pc_remoteDescription := None;
                pc_localDescription := Some (OfferOf (pcCreated st));
                pc_candidates := [] |})
       (setDataChannelRef
          (Some {| ch_id := chCreated st; ch_label := "fileTransfer";
                   ch_readyState := connecting; ch_handlers := true |})
          (setChCreated (S (chCreated st))
             (setPcCreated (S (pcCreated st)) st))),
     [NewPeerConnection (pcCreated st) targetUserId;
      CreateDataChannel (pcCreated st) (chCreated st) "fileTransfer"]
     ++ match ws st with
        | Some s => [WsSend s (send_offer targetUserId
                                          (OfferOf (pcCreated st)))]
        | None => []
        end).
Proof.
  unfold createOffer, createPeerConnection, setupDataChannel, on_channel,
    on_pc, ws_send.
  run_handler. rewrite !Nat.eqb_refl. cbn. rewrite !Nat.eqb_refl. cbn.
  destruct (ws st); reflexivity.
Qed.

Lemma handleOffer_run (from : UserId) (sdp : Descriptor) (st : State) :
  handleOffer from sdp st
  = (match ws st with
     | Some _ => Returned tt
     | None => Threw TypeError_null
     end,
     setPeerConnectionRef
       (Some {| pc_id := pcCreated st; pc_target := from;
                pc_remoteDescription := Some sdp;
                pc_localDescription := Some (AnswerOf (pcCreated st));
                pc_candidates := [] |})
       (setPcCreated (S (pcCreated st)) st),
     NewPeerConnection (pcCreated st) from
     :: match ws st with
        | Some s => [WsSend s (send_answer from (AnswerOf (pcCreated st)))]
        | None => []
        end).
Proof.
  unfold handleOffer, createPeerConnection, on_pc, ws_send.
  run_handler. rewrite !Nat.eqb_refl. cbn. rewrite !Nat.eqb_refl. cbn.
  destruct (ws st); reflexivity.
Qed.

Lemma set_progress_twice (p q : JS.number) (st : State) :
  setActiveTransfer
    (Some (with_progress
             (activeTransfer
                (setActiveTransfer
                   (Some (with_progress (activeTransfer st) p)) st)) q))
    (setActiveTransfer (Some (with_progress (activeTransfer st) p)) st)
  = setActiveTransfer (Some (with_progress (activeTransfer st) q)) st.
Proof. destruct st as [? ? ? ? [a |] ? ? ? ? ? ? ?]; reflexivity. Qed.

Lemma reader_onload_full user token fo file target offset result st ch :
  dataChannelRef st = Some ch -> ch_readyState ch = open ->
  reader_onload user token fo file target offset result st
  = (Returned (offset + length result,
               offset + length result <? file_size file),
     setActiveTransfer
       (Some (with_progress (activeTransfer st)
                (sender_progress (offset + length result) (file_size file))))
       st,
     ChannelSend (ch_id ch) (Binary result)
     :: if offset + length result <? file_size file then []
        else completion_effects user token fo (ch_id ch) file target).
Proof.
  intros Hch Hopen. unfold reader_onload.
  set (o' := offset + length result).
  set (st1 := setActiveTransfer
                (Some (with_progress (activeTransfer st)
                         (sender_progress o' (file_size file)))) st).
  assert (Hch1 : dataChannelRef st1 = Some ch) by exact Hch.
  unfold bind at 1. rewrite (channel_send_open _ st Hch Hopen).
  unfold bind at 1. unfold modify at 1.
  change (setActiveTransfer _ st) with st1.
  destruct (o' <? file_size file); [reflexivity |].
  unfold bind at 1. rewrite (channel_send_open _ st1 Hch1 Hopen).
  unfold bind at 1. unfold emit at 1.
  unfold bind at 1. unfold logTransfer_called. unfold emit at 1.
  unfold bind at 1. unfold emit at 1.
  unfold bind at 1. rewrite logTransfer_resumed_run. unfold ret.
  unfold completion_effects, sent_record. destruct fo; reflexivity.
Qed.

Lemma reader_loop_full user token fo file target ch :
  ch_readyState ch = open ->
  forall fuel k st,
    dataChannelRef st = Some ch ->
    k < slice_count (file_size file) ->
    slice_count (file_size file) - k <= fuel ->
    reader_loop user token fuel fo file target (k * CHUNK_SIZE) st
    = (Returned true, transfer_done file st,
       map (fun c => ChannelSend (ch_id ch) (Binary c))
           (slices_from file k (slice_count (file_size file) - k))
       ++ completion_effects user token fo (ch_id ch) file target).
Proof.
  intro Hopen.
  induction fuel as [| fuel IH]; intros k st Hch Hk Hfuel; [lia |].
  cbn [reader_loop]. unfold readSlice.
  set (result := file_slice file (k * CHUNK_SIZE) (k * CHUNK_SIZE + CHUNK_SIZE)).
  unfold bind at 1.
  rewrite (reader_onload_full user token fo file target (k * CHUNK_SIZE)
             result st Hch Hopen).
  cbn [fst snd].
  assert (Hlen : length result
                 = Nat.min CHUNK_SIZE (file_size file - k * CHUNK_SIZE))
    by apply length_file_slice.
  assert (Hbelow : k * CHUNK_SIZE <= file_size file).
  { destruct (Nat.eq_dec (file_size file) 0) as [E | Hsize].
    - rewrite E in Hk. change (slice_count 0) with 1 in Hk.
      assert (k = 0) by lia. subst k. lia.
    - assert (Hpos : 0 < file_size file) by lia.
      pose proof (slice_count_bounds Hpos). nia. }
  destruct (Nat.ltb_spec (k * CHUNK_SIZE + length result) (file_size file))
    as [Hmore | Hdone].
  - assert (Hfull : k * CHUNK_SIZE + length result = S k * CHUNK_SIZE) by lia.
    rewrite Hfull in *.
    assert (Hk' : S k < slice_count (file_size file))
      by now apply slice_count_next.
    match goal with
    | |- context [reader_loop _ _ _ _ _ _ _ ?s] =>
        rewrite (IH (S k) s Hch Hk' ltac:(lia))
    end.
    unfold transfer_done. rewrite set_progress_twice.
    replace (slice_count (file_size file) - k)
      with (S (slice_count (file_size file) - S k)) by lia.
    unfold slices_from. cbn [seq map app]. reflexivity.
  - assert (Hlast : slice_count (file_size file) = S k)
      by (apply slice_count_last; [assumption | lia]).
    assert (Hall : k * CHUNK_SIZE + length result = file_size file) by lia.
    rewrite Hall, Hlast. replace (S k - k) with 1 by lia.
    unfold transfer_done, slices_from, ret. cbn [seq map app].
    now rewrite app_nil_r.
Qed.

(** The send phase on an open channel, in full. *)
Lemma send_phase_full user token fo file target (st : State) ch :
  dataChannelRef st = Some ch -> ch_readyState ch = open ->
  (channel_send (Text (file_meta (meta_of user file))) ;;
   reader_loop user token (S (file_size file)) fo file target 0 ;;
   ret tt) st
  = (Returned tt, transfer_done file st,
     transfer_effects user token fo (ch_id ch) file target).
Proof.
  intros Hch Hopen.
  pose proof (@reader_loop_full user token fo file target ch Hopen
                (S (file_size file)) 0 st Hch (slice_count_pos _)) as Hrun.
  change (0 * CHUNK_SIZE) with 0 in Hrun.
  rewrite Nat.sub_0_r in Hrun.
  unfold bind at 1. rewrite (channel_send_open _ st Hch Hopen).
  unfold bind at 1. rewrite Hrun.
  2: { pose proof (slice_count_le (file_size file)). lia. }
  unfold ret, transfer_effects, slices. cbn [app]. now rewrite app_nil_r.
Qed.


(** [startFileTransfer] without its loop: it does nothing, or gives up at the
    timeout, or carries the transfer through to the end. *)
Lemma startFileTransfer_closed_form (user : User) (token : string)
        (opens : option N) (fo : FetchOutcome) (st : State) :
  startFileTransfer user token opens fo st
  = match activeTransfer st with
    | Some t =>
        match at_file t, dataChannelRef st with
        | Some file, Some ch =>
            if is_open ch then
              (Returned tt, transfer_done file st,
               transfer_effects user token fo (ch_id ch) file
                                (at_targetUserId t))
            else if opens_in_time opens then
              (Returned tt,
               transfer_done file
                 (setDataChannelRef (Some (ch_with_readyState open ch)) st),
               SetTimeout OPEN_TIMEOUT OpenTimeout
               :: transfer_effects user token fo (ch_id ch) file
                                   (at_targetUserId t))
            else (Returned tt, st, timeout_effects)
        | _, _ => (Returned tt, st, [])
        end
    | None => (Returned tt, st, [])
    end.
Proof.
  unfold startFileTransfer. unfold bind at 1. unfold get at 1.
  destruct (activeTransfer st) as [t |] eqn:Hact; [| reflexivity].
  destruct (at_file t) as [file |] eqn:Hfile; [| reflexivity].
  destruct (dataChannelRef st) as [ch |] eqn:Hch; [| reflexivity].
  fold (meta_of user file). unfold is_open.
  destruct (ch_readyState ch) eqn:Hrs.
  2: { unfold bind at 1. unfold ret at 1.
       now rewrite (@send_phase_full user token fo file (at_targetUserId t)
                      st ch Hch Hrs). }
  all: destruct (opens_in_time opens) eqn:Hin.
  all: try (destruct opens as [ms |]; [| discriminate Hin];
            apply N.ltb_lt in Hin;
            unfold bind at 1; unfold try_catch; unfold bind at 1;
            rewrite (wait_for_open_in_time st Hch Hin); unfold ret at 1;
            rewrite (@send_phase_full user token fo file (at_targetUserId t)
                       (setDataChannelRef
                          (Some (ch_with_readyState open ch)) st)
                       (ch_with_readyState open ch)
                       eq_refl eq_refl);
            reflexivity).
  all: unfold bind at 1; unfold try_catch; unfold bind at 1;
    rewrite (@wait_for_open_late opens st);
    [ reflexivity
    | intros ms ->; cbn in Hin; now apply N.ltb_ge in Hin ].
Qed.

Ltac step_event :=
  cbn [handle socket_onmessage];
  unfold connect_closure;
  rewrite ?createOffer_run, ?handleOffer_run;
  unfold socket_onopen, socket_onerror, socket_onclose,
    joinRoom, leaveRoom, sendFile, acceptTransfer, rejectTransfer,
    pc_onicecandidate, pc_ondatachannel, setupDataChannel, timer_fired,
    channel_onmessage, handleAnswer, handleIceCandidate, logTransfer,
    on_pc, on_channel;
  run_handler.

Ltac break_matches :=
  repeat (match goal with
    | |- context [match ?x with _ => _ end] =>
        lazymatch x with
        | context [match _ with _ => _ end] => fail
        | _ => destruct x eqn:?
        end
    end; cbn).

(** Every event but the ones picked out by the caller, one constructor at a
    time, with the message and frame shapes spelled out. *)
Ltac each_event ev :=
  destruct ev as [? | | | [? | ? | | ? ? ? ? ? | ? [|] | ? ? | ? ? | ? ? | ?]
                 | ? | | ? ? | | | ? | ? ? | ? [[? | | ?] | ?] | ? ? | ?].

Lemma transfer_effect_frame user token opens fo (st : State) :
  sender_frame st (state_of (transfer_effect user token opens fo st)).
Proof.
  unfold transfer_effect. unfold bind at 1. unfold get at 1.
  destruct (activeTransfer st) as [t |]; [| apply sender_frame_refl].
  destruct (dataChannelRef st); [| apply sender_frame_refl].
  destruct (at_type t) as [[] |]; try apply sender_frame_refl.
  destruct (eqb (at_progress t) 0%float); [| apply sender_frame_refl].
  pose proof (keeps_startFileTransfer user token opens fo st) as H.
  destruct (startFileTransfer user token opens fo st) as [[r st'] effs].
  exact H.
Qed.

Lemma transfer_effect_never user token opens fo (p : Effect -> bool) st :
  (forall e, p e = true -> sender_effect e = false) ->
  never p (effects (transfer_effect user token opens fo st)).
Proof.
  intro Hp. unfold transfer_effect. unfold bind at 1. unfold get at 1.
  destruct (activeTransfer st) as [t |]; [| reflexivity].
  destruct (dataChannelRef st); [| reflexivity].
  destruct (at_type t) as [[] |]; try reflexivity.
  destruct (eqb (at_progress t) 0%float); [| reflexivity].
  pose proof (startFileTransfer_never user token opens fo p st Hp) as H.
  destruct (startFileTransfer user token opens fo st) as [[r st'] effs].
  exact H.
Qed.

Lemma run_cons user token ev evs st :
  run user token (ev :: evs) st
  = (fst (run user token evs (state_of (handle user token ev st))),
     effects (handle user token ev st)
     ++ snd (run user token evs (state_of (handle user token ev st)))).
Proof. reflexivity. Qed.

(** An invariant of the events that satisfy [ok] is an invariant of their
    runs. *)
Lemma run_invariant user token (I : State -> Prop) (ok : Event -> bool) :
  (forall ev st, ok ev = true -> I st ->
                 I (state_of (handle user token ev st))) ->
  forall evs st, forallb ok evs = true -> I st ->
                 I (fst (run user token evs st)).
Proof.
  intros Hstep. induction evs as [| ev evs IH]; intros st Hok Hst.
  - exact Hst.
  - cbn [forallb] in Hok. apply andb_true_iff in Hok as [Hev Hrest].
    rewrite run_cons. cbn [fst]. apply IH; [exact Hrest |].
    now apply Hstep.
Qed.

(** ... and effects that no such event has, from a state of the invariant,
    no run has. *)
Lemma run_never user token (I : State -> Prop) (ok : Event -> bool)
      (p : Effect -> bool) :
  (forall ev st, ok ev = true -> I st ->
                 I (state_of (handle user token ev st)) /\
                 never p (effects (handle user token ev st))) ->
  forall evs st, forallb ok evs = true -> I st ->
                 never p (snd (run user token evs st)).
Proof.
  intros Hstep. induction evs as [| ev evs IH]; intros st Hok Hst.
  - reflexivity.
  - cbn [forallb] in Hok. apply andb_true_iff in Hok as [Hev Hrest].
    rewrite run_cons. cbn [snd].
    destruct (Hstep ev st Hev Hst) as [Hnext Hquiet].
    apply never_app; [exact Hquiet | now apply IH].
Qed.

Lemma handle_buffer_consistent user token (ev : Event) (st : State) :
  buffer_consistent st ->
  buffer_consistent (state_of (handle user token ev st)).
Proof.
  unfold buffer_consistent. intro Hinv.
  destruct (is_transfer_effect ev) eqn:Hev.
  - destruct ev; try discriminate Hev. cbn [handle].
    destruct (transfer_effect_frame user token opens fo st)
      as (_ & _ & _ & _ & _ & Hb & Hs & _).
    now rewrite Hb, Hs.
  - each_event ev; try discriminate Hev; step_event; break_matches;
      try assumption; try reflexivity.
    all: rewrite concat_app, length_app, Hinv; cbn; now rewrite app_nil_r.
Qed.

(** X14: the received-byte counter is the total length of the buffered
    chunks, before and after every event. *)
Theorem buffer_counter_invariant (user : User) (token : string)
        (evs : list Event) (st : State) :
  buffer_consistent st ->
  buffer_consistent (fst (run user token evs st)).
Proof.
  intro Hst.
  apply run_invariant with (ok := fun _ => true); auto.
  - intros ev st' _. apply handle_buffer_consistent.
  - now apply forallb_forall.
Qed.


Lemma handle_without_socket user token (ev : Event) (st : State) :
  negb (is_socket_opened ev) = true ->
  ws st = None ->
  ws (state_of (handle user token ev st)) = None /\
  never is_ws_send (effects (handle user token ev st)).
Proof.
  intros Hev Hws. apply negb_true_iff in Hev.
  destruct (is_transfer_effect ev) eqn:Het.
  - destruct ev; try discriminate Het. cbn [handle]. split.
    + destruct (transfer_effect_frame user token opens fo st) as (Hw & _).
      now rewrite Hw.
    + apply transfer_effect_never. now intros [].
  - each_event ev; try discriminate Hev; try discriminate Het;
      step_event; rewrite ?Hws; cbn; break_matches;
      rewrite ?Hws; try congruence; split; solve [reflexivity | assumption].
Qed.

(** X9: as long as the socket has not opened, no sequence of events makes
    the provider send anything on it, and [ws] stays null. *)
Theorem no_send_before_open (user : User) (token : string)
        (evs : list Event) (st : State) :
  ws st = None ->
  forallb (fun ev => negb (is_socket_opened ev)) evs = true ->
  never is_ws_send (snd (run user token evs st)) /\
  ws (fst (run user token evs st)) = None.
Proof.
  intros Hws Hevs. split.
  - apply run_never with (I := fun st => ws st = None)
                         (ok := fun ev => negb (is_socket_opened ev)); auto.
    intros ev st'. apply handle_without_socket.
  - apply run_invariant with (I := fun st => ws st = None)
                             (ok := fun ev => negb (is_socket_opened ev)); auto.
    intros ev st' Hev Hst. now apply handle_without_socket.
Qed.

Lemma transfer_effect_no_file user token opens fo (st : State) :
  no_file_pending st ->
  transfer_effect user token opens fo st = (Returned tt, st, []).
Proof.
  unfold no_file_pending, transfer_effect, startFileTransfer.
  unfold bind at 1. unfold get at 1.
  destruct (activeTransfer st) as [t |] eqn:Hact; [| reflexivity].
  intro Hfile.
  destruct (dataChannelRef st); [| reflexivity].
  destruct (at_type t) as [[] |]; try reflexivity.
  destruct (eqb (at_progress t) 0%float); [| reflexivity].
  unfold bind at 1. unfold get at 1. rewrite Hact, Hfile. reflexivity.
Qed.

Lemma handle_no_file user token (ev : Event) (st : State) :
  negb (is_send_file ev) = true ->
  no_file_pending st ->
  no_file_pending (state_of (handle user token ev st)) /\
  never is_channel_send (effects (handle user token ev st)).
Proof.
  intros Hev Hinv. apply negb_true_iff in Hev.
  destruct (is_transfer_effect ev) eqn:Het.
  - destruct ev; try discriminate Het. cbn [handle].
    rewrite (@transfer_effect_no_file user token opens fo st Hinv). now split.
  - unfold no_file_pending in *.
    each_event ev; try discriminate Hev; try discriminate Het;
      step_event; break_matches; split; try reflexivity; try assumption.
    destruct (activeTransfer st); [exact Hinv | reflexivity].
Qed.

(** X10: an endpoint on which [sendFile] is not called puts nothing on the
    data channel, whatever it receives and whenever the transfer effect
    runs. *)
Theorem receiver_never_writes (user : User) (token : string)
        (evs : list Event) (st : State) :
  no_file_pending st ->
  forallb (fun ev => negb (is_send_file ev)) evs = true ->
  never is_channel_send (snd (run user token evs st)).
Proof.
  intros Hst Hevs.
  apply run_never with (I := no_file_pending)
                       (ok := fun ev => negb (is_send_file ev)); auto.
  intros ev st'. apply handle_no_file.
Qed.

Lemma count_app {A} (p : A -> bool) (l1 l2 : list A) :
  count p (l1 ++ l2) = count p l1 + count p l2.
Proof. unfold count. now rewrite filter_app, length_app. Qed.

Lemma count_cons {A} (p : A -> bool) (a : A) (l : list A) :
  count p (a :: l) = (if p a then 1 else 0) + count p l.
Proof. unfold count. cbn. now destruct (p a). Qed.

Lemma count_map_none {A B} (p : B -> bool) (f : A -> B) (l : list A) :
  (forall a, p (f a) = false) -> count p (map f l) = 0.
Proof.
  intro H. unfold count. induction l as [| a l IH]; cbn; [reflexivity |].
  now rewrite H.
Qed.

Lemma count_map_all {A B} (p : B -> bool) (f : A -> B) (l : list A) :
  (forall a, p (f a) = true) -> count p (map f l) = length l.
Proof.
  intro H. unfold count. induction l as [| a l IH]; cbn; [reflexivity |].
  rewrite H. cbn. now rewrite IH.
Qed.

Lemma count_fetch_transfer_effects user token fo id file target :
  count is_fetch (transfer_effects user token fo id file target) = 1.
Proof.
  unfold transfer_effects, completion_effects.
  rewrite count_cons, count_app, count_map_none by reflexivity.
  destruct fo; reflexivity.
Qed.

Lemma transfer_effect_fetches user token opens fo (st : State) :
  count is_fetch (effects (transfer_effect user token opens fo st)) <= 1.
Proof.
  unfold transfer_effect. unfold bind at 1. unfold get at 1.
  destruct (activeTransfer st) as [t |] eqn:Hact; [| cbn; lia].
  destruct (dataChannelRef st) as [ch |] eqn:Hch; [| cbn; lia].
  destruct (at_type t) as [[] |]; try (cbn; lia).
  destruct (eqb (at_progress t) 0%float); [| cbn; lia].
  rewrite startFileTransfer_closed_form, Hact, Hch.
  destruct (at_file t); [| cbn; lia].
  destruct (is_open ch); [| destruct (opens_in_time opens)];
    cbn [effects fst snd app]; rewrite ?count_cons;
    rewrite ?count_fetch_transfer_effects; cbn; lia.
Qed.

Lemma handle_downloads user token (ev : Event) (st : State) :
  count is_download (effects (handle user token ev st))
  <= (if is_file_end_message ev then 1 else 0) /\
  count is_fetch (effects (handle user token ev st))
  <= (if is_file_end_message ev || is_transfer_effect ev then 1 else 0).
Proof.
  destruct (is_transfer_effect ev) eqn:Het.
  - destruct ev; try discriminate Het. cbn [handle]. split.
    + rewrite never_count; [lia |].
      apply transfer_effect_never. now intros [].
    + rewrite orb_true_r. apply transfer_effect_fetches.
  - each_event ev; try discriminate Het; step_event; break_matches;
      split; cbn; lia.
Qed.

Lemma run_count_le user token (p : Effect -> bool) (q : Event -> bool) :
  (forall ev st, count p (effects (handle user token ev st))
                 <= if q ev then 1 else 0) ->
  forall evs st, count p (snd (run user token evs st)) <= count q evs.
Proof.
  intro Hstep. induction evs as [| ev evs IH]; intro st.
  - cbn. lia.
  - rewrite run_cons. cbn [snd]. rewrite count_app, count_cons.
    specialize (Hstep ev st).
    specialize (IH (state_of (handle user token ev st))). lia.
Qed.

(** X11: over any sequence of events there are at most as many downloads
    as [file-end] frames received, and at most as many REST records as
    [file-end] frames received plus runs of the transfer effect. *)
Theorem downloads_and_records_bounded (user : User) (token : string)
        (evs : list Event) (st : State) :
  count is_download (snd (run user token evs st))
  <= count is_file_end_message evs /\
  count is_fetch (snd (run user token evs st))
  <= count (fun ev => is_file_end_message ev || is_transfer_effect ev) evs.
Proof.
  split; apply run_count_le; intros ev st'; apply handle_downloads.
Qed.

Lemma handle_responses user token (ev : Event) (st : State) :
  count is_response (effects (handle user token ev st))
  + pending (state_of (handle user token ev st))
  <= pending st + (if is_request_message ev then 1 else 0).
Proof.
  unfold pending.
  destruct (is_transfer_effect ev) eqn:Het.
  - destruct ev; try discriminate Het. cbn [handle].
    rewrite never_count by (apply transfer_effect_never; now intros [[]| | | | | | | | ]).
    destruct (transfer_effect_frame user token opens fo st)
      as (_ & _ & _ & Hin & _).
    rewrite Hin. cbn. lia.
  - each_event ev; try discriminate Het; step_event; break_matches;
      cbn; try lia; try congruence.
Qed.

(** X12: the provider never answers more transfer requests than it has
    received: the responses sent plus the request still waiting are at most
    the request waiting at the start plus the requests received (a second
    request replaces the first, which is then never answered). *)
Theorem responses_bounded_by_requests (user : User) (token : string)
        (evs : list Event) (st : State) :
  count is_response (snd (run user token evs st))
  + pending (fst (run user token evs st))
  <= pending st + count is_request_message evs.
Proof.
  revert st. induction evs as [| ev evs IH]; intro st.
  - cbn. lia.
  - rewrite run_cons. cbn [fst snd]. rewrite count_app, count_cons.
    pose proof (handle_responses user token ev st).
    specialize (IH (state_of (handle user token ev st))). lia.
Qed.

Lemma handle_rooms user token (ev : Event) (st : State) :
  negb (is_room_message ev) = true ->
  onlineUsers (state_of (handle user token ev st)) = onlineUsers st /\
  currentRoom (state_of (handle user token ev st)) = currentRoom st.
Proof.
  intro Hev. apply negb_true_iff in Hev.
  destruct (is_transfer_effect ev) eqn:Het.
  - destruct ev; try discriminate Het. cbn [handle].
    destruct (transfer_effect_frame user token opens fo st)
      as (_ & Hu & Hr & _). now split.
  - each_event ev; try discriminate Het; try discriminate Hev;
      step_event; break_matches; split; reflexivity.
Qed.

(** X13: the displayed room and peer list change only on the server's
    [room_users], [room_joined] and [room_left] messages: [joinRoom],
    [leaveRoom] and every other event leave them as they are. *)
Theorem rooms_follow_the_server (user : User) (token : string)
        (evs : list Event) (st : State) :
  forallb (fun ev => negb (is_room_message ev)) evs = true ->
  onlineUsers (fst (run user token evs st)) = onlineUsers st /\
  currentRoom (fst (run user token evs st)) = currentRoom st.
Proof.
  intro Hevs.
  apply (run_invariant user token
           (fun s => onlineUsers s = onlineUsers st /\
                     currentRoom s = currentRoom st)
           (fun ev => negb (is_room_message ev))); auto.
  intros ev st' Hev [Hu Hr].
  destruct (handle_rooms user token ev st' Hev) as [Hu' Hr'].
  split; congruence.
Qed.

Lemma sent_frames_app (e1 e2 : list Effect) :
  sent_frames (e1 ++ e2) = sent_frames e1 ++ sent_frames e2.
Proof.
  induction e1 as [| [] e1 IH]; cbn; rewrite ?IH; reflexivity.
Qed.

Lemma sent_frames_transfer_effects user token fo id file target :
  sent_frames (transfer_effects user token fo id file target)
  = Text (file_meta (meta_of user file))
    :: map Binary (slices file) ++ [Text file_end].
Proof.
  unfold transfer_effects, completion_effects. cbn [sent_frames].
  rewrite sent_frames_app. f_equal. f_equal.
  - induction (slices file) as [| c cs IH]; cbn; [reflexivity |].
    now rewrite IH.
  - destruct fo; reflexivity.
Qed.

Lemma persisted_app (e1 e2 : list Effect) :
  persisted (e1 ++ e2) = persisted e1 ++ persisted e2.
Proof.
  induction e1 as [| [] e1 IH]; cbn; rewrite ?IH; reflexivity.
Qed.

Lemma downloads_app (e1 e2 : list Effect) :
  downloads (e1 ++ e2) = downloads e1 ++ downloads e2.
Proof.
  induction e1 as [| [] e1 IH]; cbn; rewrite ?IH; reflexivity.
Qed.

(** A complete transfer as the receiver sees it. *)
Lemma run_transfer user token fo (meta : FileMeta)
      (chunks : list (list byte)) (st : State) :
  let r := run user token
             (map (ChannelMessage fo)
                  (Text (file_meta meta) :: map Binary chunks
                   ++ [Text file_end])) st in
  downloads (snd r) = [(fm_fileName meta, fm_fileType meta, concat chunks)] /\
  persisted (snd r) = [received_record user meta] /\
  receivedBufferRef (fst r) = chunks /\
  receivedSizeRef (fst r) = length (concat chunks) /\
  transferMetaRef (fst r) = Some meta /\
  activeTransfer (fst r) = None.
Proof.
  cbn [map run handle]. rewrite map_app, run_app.
  set (r0 := channel_onmessage user token fo (Text (file_meta meta)) st).
  assert (Hmeta : transferMetaRef (state_of r0) = Some meta) by reflexivity.
  destruct (run_binary user token fo chunks (state_of r0) Hmeta)
    as (He & Hb & Hs & Hm).
  cbn [map run handle].
  rewrite (file_end_run user token fo _ Hm). rewrite He, Hb.
  cbn [state_of effects fst snd app].
  change (receivedSizeRef (setActiveTransfer None ?s))
    with (receivedSizeRef s).
  change (receivedBufferRef (setActiveTransfer None ?s))
    with (receivedBufferRef s).
  change (transferMetaRef (setActiveTransfer None ?s))
    with (transferMetaRef s).
  rewrite Hs, Hb, Hm. cbn. destruct fo; repeat split.
Qed.

(** X1: the frames [startFileTransfer] puts on the channel, delivered in order
    to the [channel.onmessage] of any receiver in any state, end in one
    download that carries the name, the type and exactly the bytes of the
    file, one REST record naming sender and receiver, a counter equal to the
    size of the file, and no active transfer. *)
Theorem transfer_round_trip (sender receiver : User) (stoken rtoken : string)
        (opens : option N) (fo fo' : FetchOutcome) (st rst : State)
        (t : ActiveTransfer) (file : File) (ch : DataChannel) :
  activeTransfer st = Some t ->
  at_file t = Some file ->
  dataChannelRef st = Some ch ->
  is_open ch || opens_in_time opens = true ->
  let frames :=
    sent_frames (effects (startFileTransfer sender stoken opens fo st)) in
  let r := run receiver rtoken (map (ChannelMessage fo') frames) rst in
  downloads (snd r) = [(file_name file, file_type file, file_bytes file)] /\
  persisted (snd r)
  = [{| tl_fileName := file_name file;
        tl_fileSize := Z.of_nat (file_size file);
        tl_fileType := file_type file;
        tl_sender_id := user_id sender;
        tl_receiver_id := Some (user_id receiver) |}] /\
  receivedSizeRef (fst r) = file_size file /\
  activeTransfer (fst r) = None.
Proof.
  intros Hact Hfile Hch Hready frames r.
  assert (Hframes : frames
                    = Text (file_meta (meta_of sender file))
                      :: map Binary (slices file) ++ [Text file_end]).
  { subst frames. rewrite startFileTransfer_closed_form, Hact, Hfile, Hch.
    destruct (is_open ch); [| cbn in Hready; rewrite Hready];
      cbn [effects fst snd sent_frames];
      apply sent_frames_transfer_effects. }
  subst r. rewrite Hframes.
  destruct (run_transfer receiver rtoken fo' (meta_of sender file)
                         (slices file) rst)
    as (Hd & Hp & _ & Hs & _ & Ha).
  rewrite Hd, Hp, Hs, Ha, slices_cover. repeat split.
Qed.

(** X6: an accepted [transfer-response] replaces both refs: a new peer
    connection towards the responder with the offer as local description, and
    a new [fileTransfer] channel in state connecting with the handlers
    installed; the pending transfer is untouched.  With a socket the offer is
    sent to the responder; without one the handler throws a [TypeError] after
    it has replaced the refs. *)
Theorem acceptance_starts_negotiation (user : User) (from : UserId)
        (st : State) :
  let r := socket_onmessage user (transfer_response from true) st in
  peerConnectionRef (state_of r)
  = Some {| pc_id := pcCreated st; pc_target := from;
            pc_remoteDescription := None;
            pc_localDescription := Some (OfferOf (pcCreated st));
            pc_candidates := [] |} /\
  dataChannelRef (state_of r)
  = Some {| ch_id := chCreated st; ch_label := "fileTransfer";
            ch_readyState := connecting; ch_handlers := true |} /\
  activeTransfer (state_of r) = activeTransfer st /\
  incomingTransfer (state_of r) = incomingTransfer st /\
  match ws st with
  | Some s =>
      outcome r = Returned tt /\
      effects r = [NewPeerConnection (pcCreated st) from;
                   CreateDataChannel (pcCreated st) (chCreated st)
                                     "fileTransfer";
                   WsSend s (send_offer from (OfferOf (pcCreated st)))]
  | None =>
      outcome r = Threw TypeError_null /\
      effects r = [NewPeerConnection (pcCreated st) from;
                   CreateDataChannel (pcCreated st) (chCreated st)
                                     "fileTransfer"]
  end.
Proof.
  cbn [socket_onmessage]. rewrite createOffer_run.
  cbn [state_of outcome effects fst snd]. cbn.
  destruct (ws st); repeat split.
Qed.

(** X7: an [answer] with no peer connection in the ref throws a [TypeError]
    and changes nothing; with one, it sets the remote description of that
    connection and does nothing else, whoever the message names as sender. *)
Theorem answer_needs_a_connection (user : User) (from : UserId)
        (sdp : Descriptor) (st : State) :
  socket_onmessage user (answer from sdp) st
  = match peerConnectionRef st with
    | None => (Threw TypeError_null, st, [])
    | Some pc =>
        (Returned tt,
         setPeerConnectionRef (Some (pc_setRemoteDescription sdp pc)) st, [])
    end.
Proof.
  cbn [socket_onmessage]. unfold handleAnswer, on_pc. run_handler.
  destruct (peerConnectionRef st) as [pc |] eqn:Hpc; cbn; [| reflexivity].
  now rewrite Hpc, Nat.eqb_refl.
Qed.

Lemma handle_never_negotiates user token (ev : Event) (st : State) :
  never is_negotiation (effects (handle user token ev st)).
Proof.
  destruct (is_transfer_effect ev) eqn:Het.
  - destruct ev; try discriminate Het. cbn [handle].
    apply transfer_effect_never. now intros [? [] | | | | | | | | ].
  - each_event ev; try discriminate Het; step_event; break_matches;
      reflexivity.
Qed.

(** X8: on a provider in its first connection, no offer, no answer and no
    candidate is ever put on the signaling socket, whatever the state and
    whatever events arrive: the handlers that would send them are closures of
    the render that connected, where [ws] is null. *)
Theorem negotiation_never_sent (user : User) (token : string)
        (evs : list Event) (st : State) :
  never is_negotiation (snd (run user token evs st)).
Proof.
  apply run_never with (I := fun _ => True) (ok := fun _ => true); auto.
  - intros ev st' _ _. split; [exact I | apply handle_never_negotiates].
  - now apply forallb_forall.
Qed.

(** X15: [file-end] does not empty the buffer: when further chunks and a
    second [file-end] arrive without a new [file-meta], the second download
    carries the chunks of the first one again, followed by the new ones. *)
Theorem buffer_survives_file_end (user : User) (token : string)
        (fo : FetchOutcome) (meta : FileMeta)
        (first second : list (list byte)) (st : State) :
  let frames := Text (file_meta meta) :: map Binary first
                ++ [Text file_end] ++ map Binary second ++ [Text file_end] in
  downloads (snd (run user token (map (ChannelMessage fo) frames) st))
  = [(fm_fileName meta, fm_fileType meta, concat first);
     (fm_fileName meta, fm_fileType meta, concat (first ++ second))].
Proof.
  cbv zeta.
  rewrite app_comm_cons, app_assoc, map_app, run_app.
  rewrite <- app_comm_cons. cbn [snd]. rewrite downloads_app.
  destruct (run_transfer user token fo meta first st)
    as (Hd & _ & Hb & _ & Hm & _).
  rewrite Hd. cbn [app]. f_equal.
  set (st1 := fst (run user token _ st)) in *.
  rewrite map_app, run_app. cbn [snd]. rewrite downloads_app.
  destruct (run_binary user token fo second st1 Hm) as (He & Hb2 & _ & Hm2).
  rewrite He. cbn [app map run handle downloads].
  rewrite (file_end_run user token fo _ Hm2), Hb2, Hb.
  cbn. destruct fo; reflexivity.
Qed.

(** X16: before any [file-meta], a [file-end] throws a [TypeError] and does
    nothing; a binary frame throws too, but only after it was appended to the
    buffer and counted. *)
Theorem frames_before_meta_throw (user : User) (token : string)
        (fo : FetchOutcome) (chunk : list byte) (st : State) :
  transferMetaRef st = None ->
  channel_onmessage user token fo (Text file_end) st
  = (Threw TypeError_null, st, []) /\
  channel_onmessage user token fo (Binary chunk) st
  = (Threw TypeError_null,
     setReceivedSizeRef (receivedSizeRef st + length chunk)
       (setReceivedBufferRef (receivedBufferRef st ++ [chunk]) st),
     []).
Proof.
  intro Hmeta. cbn [channel_onmessage]. run_handler. rewrite Hmeta.
  split; reflexivity.
Qed.

Lemma persisted_transfer_effects user token fo id file target :
  persisted (transfer_effects user token fo id file target)
  = [sent_record user file target].
Proof.
  unfold transfer_effects, completion_effects. cbn [persisted].
  rewrite persisted_app.
  replace (persisted (map (fun c => ChannelSend id (Binary c)) (slices file)))
    with (@nil TransferLog)
    by (induction (slices file) as [| c cs IH]; cbn; auto).
  destruct fo; reflexivity.
Qed.

(** X2: [startFileTransfer] never throws and never leaves a transfer
    half-sent (the channel staying open once it is): either it puts nothing
    on the channel, posts no record and leaves the state as it was, or it
    sends [file-meta], every slice and [file-end] and posts one record. *)
Theorem transfer_is_all_or_nothing (user : User) (token : string)
        (opens : option N) (fo : FetchOutcome) (st : State) :
  let r := startFileTransfer user token opens fo st in
  outcome r = Returned tt /\
  ((sent_frames (effects r) = [] /\ persisted (effects r) = [] /\
    state_of r = st) \/
   (exists t file,
      activeTransfer st = Some t /\ at_file t = Some file /\
      sent_frames (effects r)
      = Text (file_meta (meta_of user file))
        :: map Binary (slices file) ++ [Text file_end] /\
      persisted (effects r)
      = [sent_record user file (at_targetUserId t)])).
Proof.
  cbv zeta. rewrite startFileTransfer_closed_form.
  destruct (activeTransfer st) as [t |] eqn:Hact; [| split; auto].
  destruct (at_file t) as [file |] eqn:Hfile; [| split; auto].
  destruct (dataChannelRef st) as [ch |] eqn:Hch; [| split; auto].
  destruct (is_open ch); [| destruct (opens_in_time opens)];
    cbn [outcome effects state_of fst snd sent_frames persisted];
    (split; [reflexivity |]).
  - right. exists t, file.
    rewrite sent_frames_transfer_effects, persisted_transfer_effects. auto.
  - right. exists t, file.
    rewrite sent_frames_transfer_effects, persisted_transfer_effects. auto.
  - left. auto.
Qed.

(** X3: whatever happens in [startFileTransfer], the socket, the room, the
    incoming request, the peer connection, the receive buffer with its counter
    and metadata are what they were; the data channel is the same object, and
    the active transfer keeps its name, size, kind, file and target: only its
    progress moves. *)
Theorem sender_touches_only_progress (user : User) (token : string)
        (opens : option N) (fo : FetchOutcome) (st : State) :
  let st' := state_of (startFileTransfer user token opens fo st) in
  let identity t := (at_fileName t, at_fileSize t, at_type t, at_file t,
                     at_targetUserId t) in
  (ws st', onlineUsers st', currentRoom st', incomingTransfer st',
   peerConnectionRef st')
  = (ws st, onlineUsers st, currentRoom st, incomingTransfer st,
     peerConnectionRef st) /\
  (receivedBufferRef st', receivedSizeRef st', transferMetaRef st')
  = (receivedBufferRef st, receivedSizeRef st, transferMetaRef st) /\
  (pcCreated st', chCreated st') = (pcCreated st, chCreated st) /\
  option_map ch_id (dataChannelRef st') = option_map ch_id (dataChannelRef st) /\
  option_map identity (activeTransfer st')
  = option_map identity (activeTransfer st).
Proof.
  cbv zeta. rewrite startFileTransfer_closed_form.
  destruct (activeTransfer st) as [t |] eqn:Hact;
    [| cbn; rewrite Hact; repeat split].
  destruct (at_file t) as [file |] eqn:Hfile;
    [| cbn; rewrite Hact; repeat split].
  destruct (dataChannelRef st) as [ch |] eqn:Hch;
    [| cbn; rewrite Hact, ?Hch; repeat split].
  destruct (is_open ch); [| destruct (opens_in_time opens)];
    cbn; rewrite ?Hact, ?Hch; cbn; repeat split.
Qed.

(** X4: a transfer of an empty file sends one (empty) binary frame; a file of
    [n > 0] bytes is sent in the least number [k] of binary frames with
    [n <= k * 16384]. *)
Theorem binary_frame_count (user : User) (token : string)
        (opens : option N) (fo : FetchOutcome) (st : State)
        (t : ActiveTransfer) (file : File) (ch : DataChannel) :
  activeTransfer st = Some t ->
  at_file t = Some file ->
  dataChannelRef st = Some ch ->
  is_open ch || opens_in_time opens = true ->
  let n := count is_binary
             (sent_frames (effects (startFileTransfer user token opens fo st))) in
  (file_size file = 0 -> n = 1) /\
  (0 < file_size file ->
   (n - 1) * CHUNK_SIZE < file_size file <= n * CHUNK_SIZE).
Proof.
  intros Hact Hfile Hch Hready n.
  assert (Hn : n = slice_count (file_size file)).
  { subst n. rewrite startFileTransfer_closed_form, Hact, Hfile, Hch.
    destruct (is_open ch); [| cbn in Hready; rewrite Hready];
      cbn [effects fst snd sent_frames];
      rewrite sent_frames_transfer_effects;
      rewrite count_cons, count_app, count_map_all by reflexivity;
      cbn; unfold slices, slices_from; rewrite length_map, length_seq; lia. }
  rewrite Hn. split.
  - intros ->. reflexivity.
  - apply slice_count_bounds.
Qed.

(** * The authentication context *)

Lemma auth_handle_mirrors (ev : AuthEvent) (s : AuthSession) :
  auth_token (session s) = stored_token (session s) ->
  auth_token (session (auth_handle ev s))
  = stored_token (session (auth_handle ev s)).
Proof.
  intro H.
  destruct ev as [[data | e] | [data | e] | | | [data | e]]; cbn;
    try assumption; try reflexivity.
  - unfold token_effect.
    destruct (truthy_token (auth_token (session s))); cbn; assumption.
  - destruct (me_in_flight s); cbn; assumption.
  - destruct (me_in_flight s); cbn; [assumption | reflexivity].
Qed.

(** X18: from mount on, after any sequence of logins, registrations, logouts,
    runs of the token effect and responses to [/auth/me], in any order and
    whatever the backend answers, the token in memory is the token in
    [localStorage]. *)
Theorem auth_token_mirrors_storage (stored : option string)
        (evs : list AuthEvent) :
  let st := session (auth_run evs (session_mount stored)) in
  auth_token st = stored_token st.
Proof.
  cbv zeta. unfold auth_run.
  assert (H : auth_token (session (session_mount stored))
              = stored_token (session (session_mount stored)))
    by reflexivity.
  revert H. generalize (session_mount stored).
  induction evs as [| ev evs IH]; intros s H; cbn [fold_left].
  - exact H.
  - apply IH. now apply auth_handle_mirrors.
Qed.

(** X19: a failed login or registration throws and leaves the session as it
    was; a failed [/auth/me] clears user, token and storage, whatever they
    were; the token effect makes the request if there is a token and ends the
    loading if not, and every response to the request ends the loading: the
    effect followed by the response to its request always does. *)
Theorem failed_request_outcomes (st : AuthState) (error : string) :
  login (axios_failed error) st = (Threw error, st) /\
  register (axios_failed error) st = (Threw error, st) /\
  fetchUser_settled (axios_failed error) st
  = {| auth_user := None; auth_token := None; auth_loading := false;
       stored_token := None |} /\
  (forall me, auth_loading (fetchUser_settled me st) = false) /\
  (forall n,
     token_effect {| session := st; me_in_flight := n |}
     = if truthy_token (auth_token st)
       then {| session := st; me_in_flight := S n |}
       else {| session := set_loading false st; me_in_flight := n |}) /\
  session (auth_run [TokenEffect; MeSettled (axios_failed error)]
                    {| session := st; me_in_flight := 0 |})
  = (if truthy_token (auth_token st)
     then {| auth_user := None; auth_token := None; auth_loading := false;
             stored_token := None |}
     else set_loading false st) /\
  (forall me,
     auth_loading
       (session (auth_run [TokenEffect; MeSettled me]
                          {| session := st; me_in_flight := 0 |})) = false).
Proof.
  split; [reflexivity |]. split; [reflexivity |]. split; [reflexivity |].
  split; [intro me; reflexivity |].
  split; [| split].
  - intro n. unfold token_effect. cbn.
    destruct (truthy_token (auth_token st)); reflexivity.
  - cbn. unfold token_effect. cbn.
    destruct (truthy_token (auth_token st)); reflexivity.
  - intro me. cbn. unfold token_effect. cbn.
    destruct (truthy_token (auth_token st)); reflexivity.
Qed.

(** X25: the user is not tied to the token.  When the user logs out while
    the request to [/auth/me] of the token effect is in flight, and the
    request then succeeds, the provider ends with a user and no token, in
    memory and in storage. *)
Theorem logout_during_fetch_leaves_user (t : string) (u : User) :
  truthy_string t = true ->
  let s := auth_run [TokenEffect; Logout; MeSettled (axios_ok u)]
                    (session_mount (Some t)) in
  auth_user (session s) = Some u /\
  auth_token (session s) = None /\
  stored_token (session s) = None /\
  auth_loading (session s) = false /\
  me_in_flight s = 0.
Proof.
  intro Ht. cbn. unfold token_effect. cbn. rewrite Ht. cbn.
  repeat split.
Qed.

(** * The address of the signaling socket *)

Lemma startsWith_append (pattern s : string) :
  startsWith (String.append pattern s) pattern = true.
Proof.
  induction pattern as [| c p IH]; cbn; [reflexivity |].
  now rewrite Ascii.eqb_refl, IH.
Qed.

Lemma string_drop_append (pattern s : string) :
  string_drop (String.length pattern) (String.append pattern s) = s.
Proof. induction pattern as [| c p IH]; cbn; [reflexivity | apply IH]. Qed.

Lemma replace_first_prefix (pattern replacement rest : string) :
  replace_first pattern replacement (String.append pattern rest)
  = String.append replacement rest.
Proof.
  destruct (String.append pattern rest) eqn:E; cbn [replace_first];
    rewrite <- E, startsWith_append, string_drop_append; reflexivity.
Qed.

Lemma scheme_follows_the_backend (rest : string) :
  wsUrl (String.append "https://" rest) = String.append "wss://" rest /\
  wsUrl (String.append "http://" rest) = String.append "ws://" rest /\
  (forall backend,
     startsWith backend "https://" = false ->
     startsWith backend "http://" = false ->
     wsUrl backend = backend).
Proof.
  split; [| split].
  - unfold wsUrl. rewrite (replace_first_prefix "https://" "wss://" rest).
    reflexivity.
  - unfold wsUrl.
    replace (startsWith (String.append "http://" rest) "https://")
      with false.
    + now rewrite (replace_first_prefix "http://" "ws://" rest).
    + destruct rest; reflexivity.
  - intros backend H1 H2. unfold wsUrl. now rewrite H1, H2.
Qed.

Lemma strip_no_trailing_slash (s : string) :
  ends_with_slash (strip_trailing_slashes s) = false.
Proof.
  induction s as [| c s IH]; [reflexivity |].
  cbn [strip_trailing_slashes].
  destruct (strip_trailing_slashes s) as [| d rest] eqn:E.
  - destruct (Ascii.eqb c "/") eqn:Hc; [reflexivity |]. cbn. exact Hc.
  - exact IH.
Qed.

Lemma strip_splits (s : string) :
  exists slashes,
    s = String.append (strip_trailing_slashes s) slashes /\
    string_forallb (Ascii.eqb "/"%char) slashes = true.
Proof.
  induction s as [| c s (slashes & Hs & Hall)].
  - exists EmptyString. split; reflexivity.
  - cbn [strip_trailing_slashes].
    destruct (strip_trailing_slashes s) as [| d rest] eqn:E.
    + destruct (Ascii.eqb_spec c "/"%char) as [-> | Hc].
      * exists (String "/"%char slashes). cbn in Hs. subst s.
        split; [reflexivity |]. cbn. exact Hall.
      * exists slashes. cbn in *. now subst s.
    + exists slashes. cbn in *. rewrite Hs at 1. now split.
Qed.

Lemma strip_fixed (s : string) :
  ends_with_slash s = false -> strip_trailing_slashes s = s.
Proof.
  induction s as [| c s IH]; [reflexivity |].
  cbn [ends_with_slash strip_trailing_slashes].
  destruct s as [| d s'].
  - cbn. now intros ->.
  - intro H. rewrite (IH H). reflexivity.
Qed.

(** X20: the address of the socket is a base, then [/api/ws/], then the
    encoded token, where the base is the rewritten backend address without
    the slashes at its end: it never ends in a slash, and what was cut off
    consists of slashes only. *)
Theorem socket_address_shape (env : option string) (token : string) :
  exists base slashes,
    socket_address env token
    = String.append base
        (String.append "/api/ws/" (encodeURIComponent token)) /\
    wsUrl (backend_url env) = String.append base slashes /\
    ends_with_slash base = false /\
    string_forallb (Ascii.eqb "/"%char) slashes = true.
Proof.
  destruct (strip_splits (wsUrl (backend_url env))) as (slashes & Hs & Hall).
  exists (strip_trailing_slashes (wsUrl (backend_url env))), slashes.
  split; [reflexivity |]. split; [exact Hs |].
  split; [apply strip_no_trailing_slash | exact Hall].
Qed.

Lemma unreserved_or_percent_hex (n : nat) :
  n < 16 -> unreserved (hex_digit n) = true.
Proof.
  intro H. do 16 (destruct n as [| n]; [reflexivity |]). lia.
Qed.

(** X22: the token part of the address consists of unreserved characters
    and [%] only; in particular it contains no slash, question mark, hash,
    ampersand, equals sign or space. *)
Theorem encoded_token_is_one_segment (token : string) :
  string_forallb (fun c => unreserved c || Ascii.eqb c "%")
                 (encodeURIComponent token) = true /\
  string_forallb
    (fun c => negb (existsb (Ascii.eqb c) ["/"; "?"; "#"; "&"; "="; " "]%char))
    (encodeURIComponent token) = true.
Proof.
  assert (Hsafe : forall c, unreserved c || Ascii.eqb c "%" = true ->
            negb (existsb (Ascii.eqb c)
                          ["/"; "?"; "#"; "&"; "="; " "]%char) = true).
  { intros c Hc. apply negb_true_iff.
    destruct (existsb (Ascii.eqb c) ["/"; "?"; "#"; "&"; "="; " "]%char)
      eqn:E; [| reflexivity].
    apply existsb_exists in E as (d & Hd & Hcd).
    apply Ascii.eqb_eq in Hcd. subst d.
    cbn in Hd.
    destruct Hd as [<- | [<- | [<- | [<- | [<- | [<- | []]]]]]];
      discriminate Hc. }
  assert (Hmain : string_forallb (fun c => unreserved c || Ascii.eqb c "%")
                    (encodeURIComponent token) = true).
  { induction token as [| c s IH]; [reflexivity |].
    cbn [encodeURIComponent].
    destruct (unreserved c) eqn:Hc; cbn [string_forallb].
    - now rewrite Hc, IH.
    - rewrite IH.
      rewrite !unreserved_or_percent_hex; [reflexivity | |].
      + apply Nat.mod_upper_bound. lia.
      + apply Nat.Div0.div_lt_upper_bound.
        pose proof (nat_ascii_bounded c). lia. }
  split; [exact Hmain |].
  revert Hmain. generalize (encodeURIComponent token).
  induction s as [| c s IH]; [reflexivity |].
  cbn [string_forallb]. intro H. apply andb_true_iff in H as [Hc Hrest].
  now rewrite (Hsafe c Hc), IH.
Qed.

(** X23: the token appears in the address unchanged exactly when it
    consists of unreserved characters (letters, digits and [- _ . ! ~ * ' ( )])
    only. *)
Theorem plain_tokens_pass_unchanged (token : string) :
  string_forallb unreserved token = true <->
  encodeURIComponent token = token.
Proof.
  assert (Hlen : forall s, String.length s <= String.length (encodeURIComponent s)).
  { induction s as [| c s IH]; [reflexivity |].
    cbn [encodeURIComponent]. destruct (unreserved c); cbn; lia. }
  induction token as [| c s IH]; [split; reflexivity |].
  cbn [string_forallb encodeURIComponent].
  destruct (unreserved c) eqn:Hc; cbn [andb].
  - rewrite IH. split; [now intros -> | now intros [=]].
  - split; [discriminate |]. intro H. exfalso.
    injection H as _ Hs. apply (f_equal String.length) in Hs.
    cbn in Hs. specialize (Hlen s). lia.
Qed.

Lemma hex_digit_value (n : nat) :
  n < 16 ->
  nat_of_ascii (hex_digit n) = if n <? 10 then 48 + n else 55 + n.
Proof.
  intro H. unfold hex_digit.
  destruct (n <? 10); apply nat_ascii_embedding; lia.
Qed.

Lemma hex_digit_injective (n m : nat) :
  n < 16 -> m < 16 -> hex_digit n = hex_digit m -> n = m.
Proof.
  intros Hn Hm H. apply (f_equal nat_of_ascii) in H.
  rewrite !hex_digit_value in H by assumption.
  destruct (Nat.ltb_spec n 10), (Nat.ltb_spec m 10); lia.
Qed.

Lemma encodeURIComponent_injective (s1 s2 : string) :
  encodeURIComponent s1 = encodeURIComponent s2 -> s1 = s2.
Proof.
  revert s2. induction s1 as [| c1 s1 IH]; intros [| c2 s2];
    cbn [encodeURIComponent].
  - reflexivity.
  - destruct (unreserved c2); discriminate.
  - destruct (unreserved c1); discriminate.
  - set (h1 := nat_of_ascii c1 / 16). set (l1 := nat_of_ascii c1 mod 16).
    set (h2 := nat_of_ascii c2 / 16). set (l2 := nat_of_ascii c2 mod 16).
    pose proof (nat_ascii_bounded c1) as Hb1.
    pose proof (nat_ascii_bounded c2) as Hb2.
    assert (h1 < 16 /\ h2 < 16 /\ l1 < 16 /\ l2 < 16) as (Hh1 & Hh2 & Hl1 & Hl2).
    { subst h1 h2 l1 l2. repeat split;
        first [ apply Nat.Div0.div_lt_upper_bound; lia
              | apply Nat.mod_upper_bound; lia ]. }
    destruct (unreserved c1) eqn:U1, (unreserved c2) eqn:U2; intro H.
    + injection H as -> Hs. now rewrite (IH s2 Hs).
    + injection H as -> _. discriminate U1.
    + injection H as <- _. discriminate U2.
    + injection H as Hhi Hlo Hs. rewrite (IH s2 Hs). f_equal.
      apply hex_digit_injective in Hhi; [| assumption | assumption].
      apply hex_digit_injective in Hlo; [| assumption | assumption].
      rewrite <- (ascii_nat_embedding c1), <- (ascii_nat_embedding c2).
      f_equal.
      assert (E1 : nat_of_ascii c1 = 16 * h1 + l1)
        by (subst h1 l1; apply Nat.div_mod_eq).
      assert (E2 : nat_of_ascii c2 = 16 * h2 + l2)
        by (subst h2 l2; apply Nat.div_mod_eq).
      clearbody h1 h2 l1 l2. lia.
Qed.

(** X21: an [https://] backend gives a [wss://] address and an [http://]
    backend a [ws://] address with the rest unchanged, any other backend is
    used as it is, and a missing or empty backend setting gives
    [ws://127.0.0.1:8000/api/ws/] followed by the encoded token. *)
Theorem scheme_and_default (env : option string) (rest token : string) :
  wsUrl (String.append "https://" rest) = String.append "wss://" rest /\
  wsUrl (String.append "http://" rest) = String.append "ws://" rest /\
  (startsWith (backend_url env) "https://" = false ->
   startsWith (backend_url env) "http://" = false ->
   wsUrl (backend_url env) = backend_url env) /\
  (env = None \/ env = Some "" ->
   socket_address env token
   = String.append "ws://127.0.0.1:8000/api/ws/" (encodeURIComponent token)).
Proof.
  destruct (scheme_follows_the_backend rest) as (H1 & H2 & H3).
  split; [exact H1 |]. split; [exact H2 |]. split; [apply H3 |].
  intros [-> | ->]; reflexivity.
Qed.

Lemma append_cancel_left (p a b : string) :
  String.append p a = String.append p b -> a = b.
Proof.
  induction p as [| c p IH]; cbn; [auto |].
  intro H. injection H as H. now apply IH.
Qed.

(** X24: with the same backend setting, two tokens with the same socket
    address are the same token. *)
Theorem socket_address_injective (env : option string) (t1 t2 : string) :
  socket_address env t1 = socket_address env t2 -> t1 = t2.
Proof.
  unfold socket_address. intro H.
  apply append_cancel_left in H. apply append_cancel_left in H.
  now apply encodeURIComponent_injective.
Qed.

(** * Instances of the properties that have a precondition *)

Lemma transfer_round_trip_witness :
  downloads
    (snd (run demo_user "r"
            (map (ChannelMessage (fetch_resolved 200))
                 (sent_frames
                    (effects (startFileTransfer demo_user "t" None
                                (fetch_resolved 200)
                                (sender_ready (demo_file 3) open)))))
            initial))
  = [("report.pdf", "application/pdf", [x00; x00; x00])].
Proof.
  exact (proj1 (@transfer_round_trip demo_user demo_user "t" "r" None
                  (fetch_resolved 200) (fetch_resolved 200)
                  (sender_ready (demo_file 3) open) initial
                  (demo_transfer (demo_file 3)) (demo_file 3)
                  (demo_channel open) eq_refl eq_refl eq_refl eq_refl)).
Defined.

Lemma binary_frame_count_witness :
  count is_binary
    (sent_frames
       (effects (startFileTransfer demo_user "t" None (fetch_resolved 200)
                                   (sender_ready (demo_file 0) open)))) = 1.
Proof.
  apply (proj1 (@binary_frame_count demo_user "t" None (fetch_resolved 200)
                  (sender_ready (demo_file 0) open)
                  (demo_transfer (demo_file 0)) (demo_file 0)
                  (demo_channel open) eq_refl eq_refl eq_refl eq_refl)).
  reflexivity.
Defined.

Lemma no_send_before_open_witness :
  ws (fst (run demo_user "t"
             [UiJoinRoom "lobby";
              UiSendFile (Some (demo_file 3)) "2";
              SocketMessage (offer "7" (FromWire "sdp"));
              UiLeaveRoom] initial)) = None.
Proof.
  apply (proj2 (@no_send_before_open demo_user "t"
                  [UiJoinRoom "lobby";
                   UiSendFile (Some (demo_file 3)) "2";
                   SocketMessage (offer "7" (FromWire "sdp"));
                   UiLeaveRoom] initial eq_refl eq_refl)).
Defined.

Lemma receiver_never_writes_witness :
  never is_channel_send
    (snd (run demo_user "t"
            [SocketOpened 0;
             ChannelMessage (fetch_resolved 200)
                            (Text (file_meta (demo_meta 2)));
             TransferEffect (Some 0%N) (fetch_resolved 200);
             ChannelMessage (fetch_resolved 200) (Binary [x01; x02])]
            initial)).
Proof.
  apply (@receiver_never_writes demo_user "t"); [exact I | reflexivity].
Defined.

Lemma rooms_follow_the_server_witness :
  currentRoom
    (fst (run demo_user "t" [SocketOpened 0; UiJoinRoom "lobby"; UiLeaveRoom]
              initial)) = None.
Proof.
  apply (proj2 (@rooms_follow_the_server demo_user "t"
                  [SocketOpened 0; UiJoinRoom "lobby"; UiLeaveRoom]
                  initial eq_refl)).
Defined.

Lemma buffer_counter_invariant_witness :
  buffer_consistent
    (fst (run demo_user "t"
            [ChannelMessage (fetch_resolved 200) (Binary [x01; x02]);
             ChannelMessage (fetch_resolved 200)
                            (Text (file_meta (demo_meta 2)));
             ChannelMessage (fetch_resolved 200) (Binary [x03])]
            initial)).
Proof.
  apply (@buffer_counter_invariant demo_user "t"). reflexivity.
Defined.

Lemma frames_before_meta_throw_witness :
  outcome (channel_onmessage demo_user "t" (fetch_resolved 200)
                             (Text file_end) initial)
  = Threw TypeError_null.
Proof.
  exact (f_equal (fun r => fst (fst r))
           (proj1 (@frames_before_meta_throw demo_user "t"
                     (fetch_resolved 200) [] initial eq_refl))).
Defined.

Lemma scheme_and_default_witness :
  socket_address None "a.b/c" = "ws://127.0.0.1:8000/api/ws/a.b%2Fc".
Proof.
  exact (proj2 (proj2 (proj2 (scheme_and_default None "" "a.b/c")))
               (or_introl eq_refl)).
Defined.

Lemma socket_address_injective_witness :
  socket_address (Some "https://example.org/") "a.b/c"
  = socket_address (Some "https://example.org/") "a.b/c" /\
  "a.b/c" = "a.b/c".
Proof.
  split; [reflexivity |].
  exact (@socket_address_injective (Some "https://example.org/")
           "a.b/c" "a.b/c" eq_refl).
Defined.

Lemma logout_during_fetch_leaves_user_witness :
  auth_user
    (session (auth_run [TokenEffect; Logout; MeSettled (axios_ok demo_user)]
                       (session_mount (Some "t")))) = Some demo_user.
Proof.
  exact (proj1 (@logout_during_fetch_leaves_user "t" demo_user eq_refl)).
Defined.
